(** * sow_bookmark_store: a bookmark store persisted in an AMPS SOW topic

    A shallow embedding of [sow_bookmark_store.py] (class
    [sow_bookmark_store]) and the properties of its recovery, lookup and
    discard paths.

    Conventions of the embedding.
    - A Python string is a [string]: the sequence of its characters, a
      character outside ASCII being held as its UTF-8 bytes.  The
      difference Python 2 makes between [str] and [unicode] is not
      modelled.
    - A call that can raise returns a [result]; a method that can touch the
      object or the AMPS client returns the new object and the new world
      next to its result, also when it raises.
    - [json.loads] and the AMPS client are libraries outside the
      repository.  [json_loads] follows CPython's decoder; the client is
      an interface ([AMPSClient]) with one instance, a server holding SOW
      topics keyed by [/clientName] and [/subId], as the module's
      documentation requires. *)

From Stdlib Require Import Ascii String NArith.
From stdpp Require Import base option strings countable gmap list.

(** ** Results and exceptions *)

Inductive AMPSException : Type :=
  | ClientError (name : string)
  | WithContext (message : string) (cause : AMPSException).

Inductive exn : Type :=
  | AMPS (e : AMPSException)
  | ValueError
  | TypeError
  | KeyError.

Inductive result (E A : Type) : Type :=
  | Ok (a : A)
  | Raise (e : E).
Arguments Ok {E A} a.
Arguments Raise {E A} e.

(** ** Python values read from JSON *)

(** What [json.loads] returns.  A number is kept as its text (Python reads
    an [int] or a [float]); an object keeps its members in the order of the
    text, and [obj_get] reads it as the [dict] Python builds. *)
#[warnings="-register-all"]
Inductive json : Type :=
  | JNull
  | JBool (b : bool)
  | JNum (lexeme : string)
  | JStr (s : string)
  | JArr (items : list json)
  | JObj (members : list (string * json)).

(** Keys of a Python [dict]: the hashable values [json.loads] can return.
    Python takes [1], [1.0] and [True] for one key; numbers are compared
    here by their text, so for records whose [subId] is a number or a
    boolean the map here can hold two entries where the [dict] holds one.
    The store only ever looks up strings, and a string key is equal to no
    other key: what is said of string keys holds of the [dict]. *)
Inductive pykey : Type :=
  | KNone
  | KBool (b : bool)
  | KNum (lexeme : string)
  | KStr (s : string).

Definition pykey_code (k : pykey) : unit + bool + string + string :=
  match k with
  | KNone => inl (inl (inl tt))
  | KBool b => inl (inl (inr b))
  | KNum n => inl (inr n)
  | KStr s => inr s
  end.

Definition pykey_decode (x : unit + bool + string + string) : pykey :=
  match x with
  | inl (inl (inl _)) => KNone
  | inl (inl (inr b)) => KBool b
  | inl (inr n) => KNum n
  | inr s => KStr s
  end.

#[global] Instance pykey_eq_dec : EqDecision pykey.
Proof. solve_decision. Defined.

#[global] Instance pykey_countable : Countable pykey.
Proof.
  apply (inj_countable' pykey_code pykey_decode).
  intros []; reflexivity.
Defined.

(** [hash(v)]: lists and dicts are unhashable. *)
Definition py_hashable (v : json) : option pykey :=
  match v with
  | JNull => Some KNone
  | JBool b => Some (KBool b)
  | JNum n => Some (KNum n)
  | JStr s => Some (KStr s)
  | JArr _ | JObj _ => None
  end.

(** ** Characters *)

Definition is_ws (c : ascii) : bool :=
  Ascii.eqb c " " || Ascii.eqb c "009" || Ascii.eqb c "010" || Ascii.eqb c "013".

Definition is_control (c : ascii) : bool := (N_of_ascii c <? 32)%N.

Definition is_digit (c : ascii) : bool :=
  (48 <=? N_of_ascii c)%N && (N_of_ascii c <=? 57)%N.

Definition hex_digit (c : ascii) : option N :=
  let n := N_of_ascii c in
  if ((48 <=? n) && (n <=? 57))%N then Some (n - 48)%N
  else if ((65 <=? n) && (n <=? 70))%N then Some (n - 55)%N
  else if ((97 <=? n) && (n <=? 102))%N then Some (n - 87)%N
  else None.

Definition hex4 (a b c d : ascii) : option N :=
  match hex_digit a, hex_digit b, hex_digit c, hex_digit d with
  | Some x, Some y, Some z, Some w => Some (((x * 16 + y) * 16 + z) * 16 + w)%N
  | _, _, _, _ => None
  end.

Definition byte (n : N) : ascii := ascii_of_N (n mod 256).

(** The UTF-8 bytes of the code point [u]; a lone surrogate takes the
    three-byte form. *)
Definition utf8 (u : N) : string :=
  if (u <? 128)%N then String (byte u) ""
  else if (u <? 2048)%N then
    String (byte (192 + u / 64)) (String (byte (128 + u mod 64)) "")
  else if (u <? 65536)%N then
    String (byte (224 + u / 4096))
      (String (byte (128 + (u / 64) mod 64)) (String (byte (128 + u mod 64)) ""))
  else
    String (byte (240 + u / 262144))
      (String (byte (128 + (u / 4096) mod 64))
         (String (byte (128 + (u / 64) mod 64)) (String (byte (128 + u mod 64)) ""))).

Definition is_high_surrogate (u : N) : bool := (55296 <=? u)%N && (u <=? 56319)%N.
Definition is_low_surrogate (u : N) : bool := (56320 <=? u)%N && (u <=? 57343)%N.
Definition join_surrogates (hi lo : N) : N :=
  (65536 + ((hi - 55296) * 1024 + (lo - 56320)))%N.

(** The one-character escapes of a JSON string. *)
Definition backslash (c : ascii) : option ascii :=
  if Ascii.eqb c "034" then Some "034"%char
  else if Ascii.eqb c "\" then Some "\"%char
  else if Ascii.eqb c "/" then Some "/"%char
  else if Ascii.eqb c "b" then Some "008"%char
  else if Ascii.eqb c "f" then Some "012"%char
  else if Ascii.eqb c "n" then Some "010"%char
  else if Ascii.eqb c "r" then Some "013"%char
  else if Ascii.eqb c "t" then Some "009"%char
  else None.

(** [lit s]: [s] with every backquote read as a double quote; the Python
    literals that hold double quotes are written this way. *)
Fixpoint lit (s : string) : string :=
  match s with
  | EmptyString => EmptyString
  | String c r => String (if Ascii.eqb c "`" then "034"%char else c) (lit r)
  end.

(** ** json.loads *)

(** [scanstring s]: [s] starts just after an opening quote; the decoded
    string and the text after the closing quote.  Strict mode: a raw
    control character is refused. *)
Fixpoint scanstring (s : string) : option (string * string) :=
  match s with
  | EmptyString => None
  | String c r =>
    if Ascii.eqb c "034" then Some (EmptyString, r)
    else if Ascii.eqb c "\" then
      match r with
      | EmptyString => None
      | String e r1 =>
        if Ascii.eqb e "u" then
          match r1 with
          | String h1 (String h2 (String h3 (String h4 r2))) =>
            match hex4 h1 h2 h3 h4 with
            | None => None
            | Some u =>
              let single :=
                match scanstring r2 with
                | Some (t, rest) => Some (utf8 u +:+ t, rest)
                | None => None
                end in
              if is_high_surrogate u then
                match r2 with
                | String b0 (String u0 (String g1 (String g2 (String g3 (String g4 r3))))) =>
                  if Ascii.eqb b0 "\" && Ascii.eqb u0 "u" then
                    match hex4 g1 g2 g3 g4 with
                    | None => None
                    | Some u2 =>
                      if is_low_surrogate u2 then
                        match scanstring r3 with
                        | Some (t, rest) => Some (utf8 (join_surrogates u u2) +:+ t, rest)
                        | None => None
                        end
                      else single
                    end
                  else single
                | _ => single
                end
              else single
            end
          | _ => None
          end
        else
          match backslash e with
          | None => None
          | Some ch =>
            match scanstring r1 with
            | Some (t, rest) => Some (String ch t, rest)
            | None => None
            end
          end
      end
    else if is_control c then None
    else
      match scanstring r with
      | Some (t, rest) => Some (String c t, rest)
      | None => None
      end
  end.

Fixpoint skip_ws (s : string) : string :=
  match s with
  | EmptyString => EmptyString
  | String c r => if is_ws c then skip_ws r else s
  end.

(** The longest prefix of digits, and the rest. *)
Fixpoint span_digits (s : string) : string * string :=
  match s with
  | EmptyString => (EmptyString, EmptyString)
  | String c r =>
    if is_digit c then let '(ds, rest) := span_digits r in (String c ds, rest)
    else (EmptyString, s)
  end.

(** NUMBER_RE: an optional minus sign and either 0 or a digit 1-9 followed
    by digits; then, each optional, a dot with at least one digit, and an
    exponent letter with an optional sign and at least one digit. *)
Definition match_integer (s : string) : option (string * string) :=
  let '(sign, s1) :=
    match s with
    | String c r => if Ascii.eqb c "-" then ("-", r) else (EmptyString, s)
    | EmptyString => (EmptyString, s)
    end in
  match s1 with
  | EmptyString => None
  | String c r =>
    if Ascii.eqb c "0" then Some (sign +:+ "0", r)
    else if is_digit c then
      let '(ds, rest) := span_digits r in Some (sign +:+ String c ds, rest)
    else None
  end.

Definition match_frac (s : string) : string * string :=
  match s with
  | String c r =>
    if Ascii.eqb c "." then
      match span_digits r with
      | (EmptyString, _) => (EmptyString, s)
      | (ds, rest) => (String c ds, rest)
      end
    else (EmptyString, s)
  | EmptyString => (EmptyString, s)
  end.

Definition match_exp (s : string) : string * string :=
  match s with
  | String c r =>
    if Ascii.eqb c "e" || Ascii.eqb c "E" then
      let '(sign, r1) :=
        match r with
        | String d r' =>
          if Ascii.eqb d "-" || Ascii.eqb d "+" then (String d EmptyString, r')
          else (EmptyString, r)
        | EmptyString => (EmptyString, r)
        end in
      match span_digits r1 with
      | (EmptyString, _) => (EmptyString, s)
      | (ds, rest) => (String c (sign +:+ ds), rest)
      end
    else (EmptyString, s)
  | EmptyString => (EmptyString, s)
  end.

Definition match_number (s : string) : option (string * string) :=
  match match_integer s with
  | None => None
  | Some (i, r) =>
    let '(f, r1) := match_frac r in
    let '(e, r2) := match_exp r1 in
    Some (i +:+ f +:+ e, r2)
  end.

(** [strip_prefix p s]: [s] without its prefix [p], when it has it. *)
Fixpoint strip_prefix (p s : string) : option string :=
  match p with
  | EmptyString => Some s
  | String a p' =>
    match s with
    | EmptyString => None
    | String b s' => if Ascii.eqb a b then strip_prefix p' s' else None
    end
  end.

Inductive parse (A : Type) : Type :=
  | Parsed (a : A) (rest : string)
  | Invalid
  | NoFuel.
Arguments Parsed {A} a rest.
Arguments Invalid {A}.
Arguments NoFuel {A}.

Definition constant (word : string) (v : json) (s : string) (otherwise : parse json) : parse json :=
  match strip_prefix word s with
  | Some rest => Parsed v rest
  | None => otherwise
  end.

(** The literals and numbers of [scan_once], in the decoder's order. *)
Definition scan_atom (s : string) : parse json :=
  constant "null" JNull s
    (constant "true" (JBool true) s
       (constant "false" (JBool false) s
          match match_number s with
          | Some (n, rest) => Parsed (JNum n) rest
          | None =>
            constant "NaN" (JNum "NaN") s
              (constant "Infinity" (JNum "Infinity") s
                 (constant "-Infinity" (JNum "-Infinity") s Invalid))
          end)).

(** [scan_once]: one value at the head of [s].  [JSONObject] is entered
    just after the opening quote of a key, [JSONArray] at a value. *)
Fixpoint scan_once (fuel : nat) (s : string) : parse json :=
  match fuel with
  | O => NoFuel
  | S n =>
    match s with
    | EmptyString => Invalid
    | String c r =>
      if Ascii.eqb c "034" then
        match scanstring r with
        | Some (t, rest) => Parsed (JStr t) rest
        | None => Invalid
        end
      else if Ascii.eqb c "{" then
        match skip_ws r with
        | String d r1 =>
          if Ascii.eqb d "}" then Parsed (JObj []) r1
          else if Ascii.eqb d "034" then
            match JSONObject n r1 with
            | Parsed ms rest => Parsed (JObj ms) rest
            | Invalid => Invalid
            | NoFuel => NoFuel
            end
          else Invalid
        | EmptyString => Invalid
        end
      else if Ascii.eqb c "[" then
        match skip_ws r with
        | String d r1 =>
          if Ascii.eqb d "]" then Parsed (JArr []) r1
          else
            match JSONArray n (String d r1) with
            | Parsed xs rest => Parsed (JArr xs) rest
            | Invalid => Invalid
            | NoFuel => NoFuel
            end
        | EmptyString => Invalid
        end
      else scan_atom s
    end
  end
with JSONObject (fuel : nat) (s : string) : parse (list (string * json)) :=
  match fuel with
  | O => NoFuel
  | S n =>
    match scanstring s with
    | None => Invalid
    | Some (key, r) =>
      match skip_ws r with
      | String c r1 =>
        if Ascii.eqb c ":" then
          match scan_once n (skip_ws r1) with
          | Parsed v r2 =>
            match skip_ws r2 with
            | String d r3 =>
              if Ascii.eqb d "}" then Parsed [(key, v)] r3
              else if Ascii.eqb d "," then
                match skip_ws r3 with
                | String q r4 =>
                  if Ascii.eqb q "034" then
                    match JSONObject n r4 with
                    | Parsed ms rest => Parsed ((key, v) :: ms) rest
                    | Invalid => Invalid
                    | NoFuel => NoFuel
                    end
                  else Invalid
                | EmptyString => Invalid
                end
              else Invalid
            | EmptyString => Invalid
            end
          | Invalid => Invalid
          | NoFuel => NoFuel
          end
        else Invalid
      | EmptyString => Invalid
      end
    end
  end
with JSONArray (fuel : nat) (s : string) : parse (list json) :=
  match fuel with
  | O => NoFuel
  | S n =>
    match scan_once n s with
    | Parsed v r =>
      match skip_ws r with
      | String d r1 =>
        if Ascii.eqb d "]" then Parsed [v] r1
        else if Ascii.eqb d "," then
          match JSONArray n (skip_ws r1) with
          | Parsed xs rest => Parsed (v :: xs) rest
          | Invalid => Invalid
          | NoFuel => NoFuel
          end
        else Invalid
      | EmptyString => Invalid
      end
    | Invalid => Invalid
    | NoFuel => NoFuel
    end
  end.

(** [json.loads(s)]: one value between optional white space; anything
    else is a [ValueError].  The fuel is twice the length of the text, which
    [json_loads_fuel] shows is never used up.  The limits of the
    interpreter are not modelled: on a text nested deeper than its
    recursion limit allows (about a thousand arrays), or with an integer
    longer than its digit limit, Python raises where [json_loads] returns
    a value.  A property that assumes [json_loads s = Ok v] speaks of the
    texts [json.loads] reads. *)
Definition json_loads (s : string) : result exn json :=
  match scan_once (S (2 * String.length s)) (skip_ws s) with
  | Parsed v rest =>
    match skip_ws rest with
    | EmptyString => Ok v
    | String _ _ => Raise ValueError
    end
  | Invalid | NoFuel => Raise ValueError
  end.

(** ** Python operators used by the store *)

#[global] Instance result_ret {E} : MRet (result E) := fun _ a => Ok a.
#[global] Instance result_bind {E} : MBind (result E) := fun _ _ f r =>
  match r with
  | Ok a => f a
  | Raise e => Raise e
  end.

(** [dict(pairs)[k]]: of two members with one name the later one stays. *)
Fixpoint obj_get (k : string) (ms : list (string * json)) : option json :=
  match ms with
  | [] => None
  | (k', v) :: rest =>
    match obj_get k rest with
    | Some later => Some later
    | None => if String.eqb k' k then Some v else None
    end
  end.

Fixpoint is_substring (p s : string) : bool :=
  match strip_prefix p s with
  | Some _ => true
  | None =>
    match s with
    | EmptyString => false
    | String _ r => is_substring p r
    end
  end.

(** [k in v] for a string [k]: a key of a dict, an item of a list, a
    substring of a string; [None], booleans and numbers are not iterable. *)
Definition py_contains (k : string) (v : json) : result exn bool :=
  match v with
  | JObj ms => Ok (bool_decide (is_Some (obj_get k ms)))
  | JArr xs => Ok (existsb (fun x => match x with JStr s => String.eqb s k | _ => false end) xs)
  | JStr s => Ok (is_substring k s)
  | JNull | JBool _ | JNum _ => Raise TypeError
  end.

(** [v[k]] for a string [k]: only a dict can be indexed by a string. *)
Definition py_getitem (v : json) (k : string) : result exn json :=
  match v with
  | JObj ms =>
    match obj_get k ms with
    | Some x => Ok x
    | None => Raise KeyError
    end
  | _ => Raise TypeError
  end.

(** [template % args] with [%s] conversions of strings. *)
Fixpoint py_format (template : string) (args : list string) : result exn string :=
  match template with
  | EmptyString =>
    match args with
    | [] => Ok EmptyString
    | _ :: _ => Raise TypeError
    end
  | String c r =>
    if Ascii.eqb c "%" then
      match r with
      | String d r' =>
        if Ascii.eqb d "s" then
          match args with
          | [] => Raise TypeError
          | a :: args' => t ← py_format r' args'; Ok (a +:+ t)
          end
        else if Ascii.eqb d "%" then t ← py_format r' args; Ok (String "%" t)
        else Raise ValueError
      | EmptyString => Raise ValueError
      end
    else t ← py_format r args; Ok (String c t)
  end.

(** ** The AMPS client *)

(** An [AMPS.Message], by the getters the store calls. *)
Record Message : Type := mkMessage {
  get_command : string;
  get_data : string;
  get_sub_id : option string;
  get_bookmark : option string
}.

(** What the store asks of its internal client: [sow(topic, filter)] and
    [publish(topic, data)], either of which may raise an [AMPSException]
    and change the world [W] the client lives in.  [H] is a reference to a
    client. *)
Class AMPSClient (H W : Type) : Type := {
  sow : H → string → string → W → result AMPSException (list Message) * W;
  publish : H → string → string → W → result AMPSException () * W
}.

(** ** class sow_bookmark_store *)

Record sow_bookmark_store (H : Type) : Type := mkStore {
  _internalClient : H;
  _trackedName : string;
  _topic : string;
  _mostRecentBookmark : gmap pykey json
}.
Arguments mkStore {H} _ _ _ _.
Arguments _internalClient {H} _.
Arguments _trackedName {H} _.
Arguments _topic {H} _.
Arguments _mostRecentBookmark {H} _.

(** The body of the loop of [__init__] for one message: the new map, or the
    exception that leaves the loop ([json.loads], [in], the subscripts and
    the hash of the key can raise). *)
Definition recover_message (message : Message) (d : gmap pykey json)
  : result exn (gmap pykey json) :=
  if negb (String.eqb (get_command message) "sow") then Ok d
  else
    bookmark_data ← json_loads (get_data message);
    has_bookmark ← py_contains "bookmark" bookmark_data;
    if negb has_bookmark then Ok d
    else
      has_subid ← py_contains "subId" bookmark_data;
      if negb has_subid then Ok d
      else
        value ← py_getitem bookmark_data "bookmark";
        key ← py_getitem bookmark_data "subId";
        match py_hashable key with
        | Some k => Ok (<[k := value]> d)
        | None => Raise TypeError
        end.

Fixpoint recover (messages : list Message) (d : gmap pykey json)
  : result exn (gmap pykey json) :=
  match messages with
  | [] => Ok d
  | message :: rest => d' ← recover_message message d; recover rest d'
  end.

Section Store.
Context {H W : Type} `{!AMPSClient H W}.

(** A method returns its result, the object and the world.  [__init__]
  returns the object it built, or the exception: a query that fails while
  the messages are read is a [sow] that raises. *)
Definition outcome (A : Type) : Type := result exn A * sow_bookmark_store H * W.

Definition __init__ (bookmark_client : H) (topic tracked_client_name : string) (w : W)
  : result exn (sow_bookmark_store H) * W :=
  let self := mkStore bookmark_client tracked_client_name topic ∅ in
  match py_format "/clientName = '%s'" [_trackedName self] with
  | Raise e => (Raise e, w)
  | Ok query =>
    match sow (_internalClient self) (_topic self) query w with
    | (Raise aex, w') => (Raise (AMPS (WithContext "Error reading bookmark store" aex)), w')
    | (Ok messages, w') =>
      match recover messages (_mostRecentBookmark self) with
      | Ok d =>
        (Ok (mkStore (_internalClient self) (_trackedName self) (_topic self) d), w')
      | Raise (AMPS aex) =>
        (Raise (AMPS (WithContext "Error reading bookmark store" aex)), w')
      | Raise e => (Raise e, w')
      end
    end
  end.

Definition set_server_version (self : sow_bookmark_store H) (version : Z) (w : W)
  : outcome () := (Ok (), self, w).

Definition get_most_recent (self : sow_bookmark_store H) (subid : string) (w : W)
  : outcome json :=
  match _mostRecentBookmark self !! KStr subid with
  | Some b => (Ok b, self, w)
  | None => (Ok (JStr "0"), self, w)
  end.

Definition is_discarded (self : sow_bookmark_store H) (message : Message) (w : W)
  : outcome bool := (Ok false, self, w).

Definition log (self : sow_bookmark_store H) (message : Message) (w : W)
  : outcome string := (Ok "1", self, w).

Definition persisted (self : sow_bookmark_store H) (subid bookmark : string) (w : W)
  : outcome () := (Ok (), self, w).

Definition discard_message (self : sow_bookmark_store H) (message : Message) (w : W)
  : outcome () :=
  let subid := get_sub_id message in
  let bookmark := get_bookmark message in
  match bookmark, subid with
  | Some bookmark, Some subid =>
    match py_format (lit "{`clientName`: `%s`, `subId`: `%s`, `bookmark`: `%s`}")
            [_trackedName self; subid; bookmark] with
    | Raise e => (Raise e, self, w)
    | Ok msg =>
      match publish (_internalClient self) (_topic self) msg w with
      | (Ok _, w') =>
        (Ok (),
         mkStore (_internalClient self) (_trackedName self) (_topic self)
           (<[KStr subid := JStr bookmark]> (_mostRecentBookmark self)),
         w')
      | (Raise aex, w') =>
        (Raise (AMPS (WithContext "Error updating bookmark store" aex)), self, w')
      end
    end
  | _, _ => (Ok (), self, w)
  end.

Definition discard (self : sow_bookmark_store H) (subid seqnumber : string) (w : W)
  : outcome () := (Ok (), self, w).

(** A caller discarding messages one after the other, going on after a
    discard that raised (as [Handler] of example.py may, or may not);
    the result of every call is kept. *)
Fixpoint discard_all (self : sow_bookmark_store H) (messages : list Message) (w : W)
  : list (result exn ()) * sow_bookmark_store H * W :=
  match messages with
  | [] => ([], self, w)
  | message :: rest =>
    let '(r, self', w') := discard_message self message w in
    let '(rs, self'', w'') := discard_all self' rest w' in
    (r :: rs, self'', w'')
  end.
End Store.

(** ** The AMPS server behind the client *)

(** Modelled from the spec: the durable record store of section 6, which is
    an AMPS instance and not part of the repository.  [publish] is a
    synchronous upsert keyed by the record's key fields, [/clientName] and
    [/subId] of a JSON body (the topic definition the module's documentation
    requires); [sow] returns the stored records that match the filter,
    between a [group_begin] and a [group_end] message.  Both calls raise
    when the client is not connected.  What the server does with a body it
    cannot key (not a JSON object, or a key field missing or not a scalar)
    the spec does not say; here it is accepted by the transport and not
    stored ([sow_upsert]), after the module's documentation (no exception
    is thrown when the client is connected but fails to write).  No
    property of the store below rests on that case: each speaks of texts
    the server keys. *)
Record World : Type := mkWorld {
  connected : gset string;
  topics : gmap string (list string)
}.

Definition row_key (data : string) : option (pykey * pykey) :=
  match json_loads data with
  | Ok (JObj ms) =>
    match obj_get "clientName" ms, obj_get "subId" ms with
    | Some c, Some s =>
      match py_hashable c, py_hashable s with
      | Some kc, Some ks => Some (kc, ks)
      | _, _ => None
      end
    | _, _ => None
    end
  | _ => None
  end.

Definition rows_of (topic : string) (w : World) : list string :=
  default [] (topics w !! topic).

(** Upsert: the row with the key of [data], if any, gives way to [data]. *)
Definition sow_upsert (rows : list string) (data : string) : list string :=
  match row_key data with
  | None => rows
  | Some k => filter (fun row => row_key row ≠ Some k) rows ++ [data]
  end.

Fixpoint drop_closing_quote (s : string) : option string :=
  match s with
  | EmptyString => None
  | String c EmptyString => if Ascii.eqb c "'" then Some EmptyString else None
  | String c r => String c <$> drop_closing_quote r
  end.

(** Modelled from the spec: the query of section 4.1 is the filter
    [clientName == trackedName]; AMPS's filter grammar is not part of the
    repository, so the only filter understood is [/clientName = '...'],
    the text between the outer quotes being the name compared. *)
Definition filter_name (query : string) : option string :=
  match strip_prefix "/clientName = '" query with
  | Some r => drop_closing_quote r
  | None => None
  end.

Definition row_client (row : string) : option pykey := fst <$> row_key row.

Definition group_begin : Message := mkMessage "group_begin" "" None None.
Definition group_end : Message := mkMessage "group_end" "" None None.
Definition sow_message (row : string) : Message := mkMessage "sow" row None None.

Definition server_sow (h topic query : string) (w : World)
  : result AMPSException (list Message) * World :=
  if bool_decide (h ∈ connected w) then
    match filter_name query with
    | Some name =>
      (Ok (group_begin
             :: map sow_message
                  (filter (fun row => row_client row = Some (KStr name)) (rows_of topic w))
             ++ [group_end]), w)
    | None => (Raise (ClientError "BadFilterException"), w)
    end
  else (Raise (ClientError "DisconnectedException"), w).

Definition server_publish (h topic data : string) (w : World)
  : result AMPSException () * World :=
  if bool_decide (h ∈ connected w) then
    (Ok (), mkWorld (connected w) (<[topic := sow_upsert (rows_of topic w) data]> (topics w)))
  else (Raise (ClientError "DisconnectedException"), w).

#[global] Instance server_client : AMPSClient string World := {
  sow := server_sow;
  publish := server_publish
}.

(** The rows of [topic] kept for the pair ([clientName], [subId]). *)
Definition records_for (clientName subId : string) (topic : string) (w : World)
  : list string :=
  filter (fun row => row_key row = Some (KStr clientName, KStr subId)) (rows_of topic w).

(** An [example.py] of the model: client [bkmrk] connected, topic empty. *)
Definition world0 : World := mkWorld {["bkmrk"]} ∅.

Definition message_of (subid bookmark data : string) : Message :=
  mkMessage "publish" data (Some subid) (Some bookmark).

(** ** Notions the properties are stated with *)

Definition plain_char (c : ascii) : bool :=
  negb (Ascii.eqb c "034") && negb (Ascii.eqb c "\") && negb (is_control c).

(** [json_plain s]: no quote, no backslash and no control character in [s],
    so that [s] between quotes is the JSON string that reads back as [s]. *)
Fixpoint json_plain (s : string) : bool :=
  match s with
  | EmptyString => true
  | String c r => plain_char c && json_plain r
  end.

(** The text [discard_message] publishes for ([clientName], [subId],
    [bookmark]). *)
Definition bookmark_record (clientName subId bookmark : string) : string :=
  match py_format (lit "{`clientName`: `%s`, `subId`: `%s`, `bookmark`: `%s`}")
          [clientName; subId; bookmark] with
  | Ok msg => msg
  | Raise _ => EmptyString
  end.

(** The filter [__init__] queries with. *)
Definition client_filter (clientName : string) : string :=
  match py_format "/clientName = '%s'" [clientName] with
  | Ok f => f
  | Raise _ => EmptyString
  end.

(** [quoted s r]: the string [s] between quotes, followed by [r]. *)
Definition quoted (s r : string) : string := String "034" (s +:+ String "034" r).

(** The fields of a stored row that is a JSON object with a [clientName], a
    [subId] and a [bookmark]. *)
Definition record_fields (row : string) : option (json * json * json) :=
  match json_loads row with
  | Ok (JObj ms) =>
    match obj_get "clientName" ms, obj_get "subId" ms, obj_get "bookmark" ms with
    | Some c, Some s, Some b => Some (c, s, b)
    | _, _, _ => None
    end
  | _ => None
  end.

Definition row_bookmark (row : string) : option json :=
  match json_loads row with
  | Ok (JObj ms) => obj_get "bookmark" ms
  | _ => None
  end.

(** What the loop of [__init__] does to the map for a row the server keyed. *)
Definition apply_row (d : gmap pykey json) (row : string) : gmap pykey json :=
  match row_key row, row_bookmark row with
  | Some (_, ks), Some v => <[ks := v]> d
  | _, _ => d
  end.

(** At most one row per ([clientName], [subId]) pair. *)
Definition keys_unique (rows : list string) : Prop := NoDup (omap row_key rows).

(** A message the loop of [__init__] passes over: not a [sow] message, or
    one whose body is a JSON object without a [bookmark] or without a
    [subId]. *)
Definition skipped (message : Message) : bool :=
  negb (String.eqb (get_command message) "sow")
  || match json_loads (get_data message) with
     | Ok (JObj ms) =>
       negb (bool_decide (is_Some (obj_get "bookmark" ms))
             && bool_decide (is_Some (obj_get "subId" ms)))
     | _ => false
     end.

(** The message carries a non-empty subscription id and a non-empty
    bookmark. *)
Definition carries_both (message : Message) : bool :=
  match get_sub_id message, get_bookmark message with
  | Some s, Some b => negb (String.eqb s "") && negb (String.eqb b "")
  | _, _ => false
  end.

(** The rows a query for the client [c] returns. *)
Definition client_rows (c topic : string) (w : World) : list string :=
  filter (fun row => row_client row = Some (KStr c)) (rows_of topic w).

(** The store of example.py, as [__init__] builds it over [world0]. *)
Definition store0 : sow_bookmark_store string :=
  mkStore "bkmrk" "haclient" "/amps/bookmarkStore" ∅.

(** A store with two records of client [C] and one of client [D]. *)
Definition world2 : World :=
  mkWorld {["bkmrk"]}
    {["/amps/bookmarkStore" :=
        [lit "{`clientName`: `C`, `subId`: `S1`, `bookmark`: `B1`}";
         lit "{`clientName`: `D`, `subId`: `S1`, `bookmark`: `B9`}";
         lit "{`clientName`: `C`, `subId`: `S2`, `bookmark`: `B2`}"]]}.

(** A store whose only row has no [bookmark]. *)
Definition world3 : World :=
  mkWorld {["bkmrk"]}
    {["/amps/bookmarkStore" := [lit "{`clientName`: `haclient`, `subId`: `orders-1`}"]]}.

(** No client connected. *)
Definition world_down : World := mkWorld ∅ ∅.

(** ** The host calling the store *)

(** One call of the host on the store: the methods of the class, with their
    arguments. *)
Inductive call : Type :=
  | SetServerVersion (version : Z)
  | GetMostRecent (subid : string)
  | IsDiscarded (message : Message)
  | Log (message : Message)
  | Persisted (subid bookmark : string)
  | DiscardMessage (message : Message)
  | Discard (subid seqnumber : string).

(** What a call returns. *)
Inductive returned : Type :=
  | RNone
  | RValue (v : json)
  | RBool (b : bool)
  | RStr (s : string).

Definition is_discard_message (c : call) : bool :=
  match c with
  | DiscardMessage _ => true
  | _ => false
  end.

Section Host.
Context {H W : Type} `{!AMPSClient H W}.

Definition returning {A : Type} (f : A → returned) (o : outcome (H := H) (W := W) A)
: result exn returned * sow_bookmark_store H * W :=
match o with
| (Ok a, self, w) => (Ok (f a), self, w)
| (Raise e, self, w) => (Raise e, self, w)
end.

Definition run_call (self : sow_bookmark_store H) (c : call) (w : W)
: result exn returned * sow_bookmark_store H * W :=
match c with
| SetServerVersion version => returning (fun _ => RNone) (set_server_version self version w)
| GetMostRecent subid => returning RValue (get_most_recent self subid w)
| IsDiscarded message => returning RBool (is_discarded self message w)
| Log message => returning RStr (log self message w)
| Persisted subid bookmark => returning (fun _ => RNone) (persisted self subid bookmark w)
| DiscardMessage message => returning (fun _ => RNone) (discard_message self message w)
| Discard subid seqnumber => returning (fun _ => RNone) (discard self subid seqnumber w)
end.

(** The host making its calls one after the other, going on after a call
  that raised; the result of every call is kept. *)
Fixpoint run_calls (self : sow_bookmark_store H) (cs : list call) (w : W)
: list (result exn returned) * sow_bookmark_store H * W :=
match cs with
| [] => ([], self, w)
| c :: rest =>
  let '(r, self', w') := run_call self c w in
  let '(rs, self'', w'') := run_calls self' rest w' in
  (r :: rs, self'', w'')
end.
End Host.

(** ** example.py: the message handler *)

(** What [Handler] asks of the client it is given: [discard(message)] and
    [disconnect()], each of which may raise, on the state [S] the client
    lives in. *)
Class DiscardingClient (C S : Type) : Type := {
  client_discard : C → Message → S → result exn () * S;
  client_disconnect : C → S → result exn () * S
}.

Record Handler (C : Type) : Type := mkHandler {
  _client : C
}.
Arguments mkHandler {C} _.
Arguments _client {C} _.

(** [Handler.__call__]: print the data, discard the message, and on any
    exception of the discard disconnect.  [stdout] is the list of the lines
    printed so far. *)
Definition __call__ {C S : Type} `{!DiscardingClient C S}
    (self : Handler C) (message : Message) (stdout : list string) (st : S)
  : result exn () * list string * S :=
  let stdout := stdout ++ [get_data message] in
  match client_discard (_client self) message st with
  | (Ok _, st') => (Ok (), stdout, st')
  | (Raise _, st') =>
    let '(r, st'') := client_disconnect (_client self) st' in
    (r, stdout, st'')
  end.

(** Modelled from the spec: the subscription session of section 6, an
    [AMPS.HAClient] and not part of the repository.  It holds the bookmark
    store it was given by [set_bookmark_store]; its [discard(message)] is
    the store's discard of the message (the module's documentation: calling
    [haclient.discard(message)] updates the bookmark store), and its
    [disconnect()] closes its own connection and does not raise. *)
Record HAClient (H W : Type) : Type := mkHAClient {
  bookmark_store : sow_bookmark_store H;
  ha_connected : bool;
  ha_world : W
}.
Arguments mkHAClient {H W} _ _ _.
Arguments bookmark_store {H W} _.
Arguments ha_connected {H W} _.
Arguments ha_world {H W} _.

Definition ha_discard {H W : Type} `{!AMPSClient H W}
    (message : Message) (st : HAClient H W) : result exn () * HAClient H W :=
  let '(r, store, w) := discard_message (bookmark_store st) message (ha_world st) in
  (r, mkHAClient store (ha_connected st) w).

Definition ha_disconnect {H W : Type} (st : HAClient H W) : result exn () * HAClient H W :=
  (Ok (), mkHAClient (bookmark_store st) false (ha_world st)).

#[global] Instance haclient_discarding {H W : Type} `{!AMPSClient H W}
  : DiscardingClient () (HAClient H W) := {
  client_discard := fun _ => ha_discard;
  client_disconnect := fun _ => ha_disconnect
}.

(** A message of the recovery query that is a stored record: a [sow]
    message whose body is a JSON object with the string [subId] and the
    value [bookmark]. *)
Definition message_record (message : Message) : option (string * json) :=
  if String.eqb (get_command message) "sow" then
    match json_loads (get_data message) with
    | Ok (JObj ms) =>
      match obj_get "subId" ms, obj_get "bookmark" ms with
      | Some (JStr s), Some v => Some (s, v)
      | _, _ => None
      end
    | _ => None
    end
  else None.

(** The messages of a discard sequence carry only strings that need no
    escaping. *)
Definition plain_message (message : Message) : bool :=
  match get_sub_id message, get_bookmark message with
  | Some s, Some b => json_plain s && json_plain b
  | _, _ => true
  end.

(** The messages a sequence of calls hands to [discard_message]. *)
Definition discarded_messages (cs : list call) : list Message :=
  omap (fun c => match c with DiscardMessage m => Some m | _ => None end) cs.

(** A client that answers every query with the messages it holds and
    accepts every publish: the world is the list of these messages. *)
#[global] Instance canned_client : AMPSClient () (list Message) := {
  sow := fun _ _ _ w => (Ok w, w);
  publish := fun _ _ _ w => (Ok (), w)
}.

(** A query answered with a record that is not JSON. *)
Definition canned_unreadable : list Message :=
  [group_begin; sow_message "not json"; group_end].

(** A query answered with two records for one subscription id. *)
Definition canned_twice : list Message :=
  [group_begin;
   sow_message (lit "{`clientName`: `C`, `subId`: `S1`, `bookmark`: `B1`}");
   sow_message (lit "{`clientName`: `C`, `subId`: `S1`, `bookmark`: `B2`}");
   group_end].

(** The rows of [world2] in another order. *)
Definition world2_reordered : World :=
  mkWorld {["bkmrk"]}
    {["/amps/bookmarkStore" :=
        [lit "{`clientName`: `C`, `subId`: `S2`, `bookmark`: `B2`}";
         lit "{`clientName`: `C`, `subId`: `S1`, `bookmark`: `B1`}";
         lit "{`clientName`: `D`, `subId`: `S1`, `bookmark`: `B9`}"]]}.

(** The subscriber of example.py: connected, with [store0] as its bookmark
    store. *)
Definition haclient0 : HAClient string World := mkHAClient store0 true world0.

Definition orders : list Message :=
  [message_of "orders-1" "41" "{}"; message_of "orders-2" "7" "{}";
   message_of "orders-1" "42" "{}"].

(** A message the loop of [__init__] passes over: not a [sow] message, or
    one whose body [json.loads] reads as a value that holds no [bookmark] or
    no [subId] by Python's [in] (a key of an object, an item of an array, a
    substring of a string). *)
Definition passed_over (message : Message) : bool :=
  negb (String.eqb (get_command message) "sow")
  || match json_loads (get_data message) with
     | Ok body =>
       match py_contains "bookmark" body, py_contains "subId" body with
       | Ok has_bookmark, Ok has_subid => negb (has_bookmark && has_subid)
       | _, _ => false
       end
     | Raise _ => false
     end.



(** * Properties *)

(** ** The decoder on concrete texts *)

Example json_loads_record_text :
  json_loads (lit "{`clientName`: `C`, `subId`: `S1`, `bookmark`: `12|34|`}")
  = Ok (JObj [("clientName", JStr "C"); ("subId", JStr "S1"); ("bookmark", JStr "12|34|")]).
Proof. vm_compute. reflexivity. Qed.

Example json_loads_nested :
  json_loads (lit " [1, -2.5e+3, true, null, {`a`: [], `b`: {}}, `x\u00e9\n`] ")
  = Ok (JArr [JNum "1"; JNum "-2.5e+3"; JBool true; JNull;
              JObj [("a", JArr []); ("b", JObj [])];
              JStr (String "x" (String "195" (String "169" (String "010" EmptyString))))]).
Proof. vm_compute. reflexivity. Qed.

Example json_loads_surrogates :
  json_loads (lit "`\ud83d\ude00`")
  = Ok (JStr (String "240" (String "159" (String "152" (String "128" EmptyString))))).
Proof. vm_compute. reflexivity. Qed.

Example json_loads_lone_surrogate :
  json_loads (lit "`\ud83dx`")
  = Ok (JStr (String "237" (String "160" (String "189" (String "x" EmptyString))))).
Proof. vm_compute. reflexivity. Qed.

Example json_loads_bad_escape : json_loads (lit "`\x`") = Raise ValueError.
Proof. vm_compute. reflexivity. Qed.

Example json_loads_duplicate_key :
  (v ← json_loads (lit "{`subId`: `a`, `subId`: `b`}"); py_getitem v "subId")
  = Ok (JStr "b").
Proof. vm_compute. reflexivity. Qed.

Example json_loads_trailing_comma : json_loads (lit "{`a`: 1,}") = Raise ValueError.
Proof. vm_compute. reflexivity. Qed.

Example json_loads_leading_zero : json_loads "01" = Raise ValueError.
Proof. vm_compute. reflexivity. Qed.

Example json_loads_numbers :
  (json_loads "-0.5E-2", json_loads "1.e5", json_loads "-", json_loads "NaN",
   json_loads "-Infinity", json_loads "  ")
  = (Ok (JNum "-0.5E-2"), Raise ValueError, Raise ValueError, Ok (JNum "NaN"),
     Ok (JNum "-Infinity"), Raise ValueError).
Proof. vm_compute. reflexivity. Qed.

Example json_loads_extra_data : json_loads "[1] 2" = Raise ValueError.
Proof. vm_compute. reflexivity. Qed.

Example json_loads_raw_tab :
  json_loads (String "034" (String "009" (String "034" EmptyString))) = Raise ValueError.
Proof. vm_compute. reflexivity. Qed.

Example py_format_filter_text :
  py_format "/clientName = '%s'" ["haclient"] = Ok "/clientName = 'haclient'".
Proof. vm_compute. reflexivity. Qed.

Example py_format_arity :
  (py_format "%s and %s" ["a"], py_format "%s" ["a"; "b"], py_format "100%%" [])
  = (Raise TypeError, Raise TypeError, Ok "100%").
Proof. vm_compute. reflexivity. Qed.

Example recover_message_string_body :
  recover_message (sow_message (lit "`bookmark subId`")) ∅ = Raise TypeError.
Proof. vm_compute. reflexivity. Qed.

Example recover_message_number :
  recover_message (sow_message "5") ∅ = Raise TypeError.
Proof. vm_compute. reflexivity. Qed.

Example recover_message_list_key :
  recover_message
    (sow_message (lit "{`clientName`: `C`, `subId`: [1], `bookmark`: `7`}")) ∅
  = Raise TypeError.
Proof. vm_compute. reflexivity. Qed.

(** ** The decoder consumes its input *)

Lemma scanstring_shorter_aux n : ∀ s t r,
  String.length s ≤ n → scanstring s = Some (t, r) → String.length r < String.length s.
Proof.
  induction n as [|n IH]; intros s t r Hn Hs.
  - destruct s; simpl in *; [discriminate | lia].
  - destruct s as [|c s]; [discriminate|].
    simpl in Hn. cbn [scanstring] in Hs.
    repeat match type of Hs with
    | context [match scanstring ?x with _ => _ end] =>
        let E := fresh "E" in destruct (scanstring x) as [[? ?]|] eqn:E;
        [apply IH in E; [|simpl in *; lia] |]
    | context [if ?b then _ else _] => destruct b
    | context [match ?x with _ => _ end] => destruct x; simpl in Hn
    | _ => discriminate
    end; simplify_eq; simpl in *; try lia.
Qed.

Lemma scanstring_shorter s t r :
  scanstring s = Some (t, r) → String.length r < String.length s.
Proof. apply (scanstring_shorter_aux (String.length s)). lia. Qed.

Lemma skip_ws_length s : String.length (skip_ws s) ≤ String.length s.
Proof. induction s as [|c s IH]; simpl; [lia|]. destruct (is_ws c); simpl; lia. Qed.

Lemma span_digits_length s ds r :
  span_digits s = (ds, r) → String.length r ≤ String.length s.
Proof.
  revert ds r. induction s as [|c s IH]; simpl; intros ds r Hs.
  - by simplify_eq.
  - destruct (is_digit c).
    + destruct (span_digits s) as [ds' r'] eqn:E. simplify_eq.
      specialize (IH _ _ eq_refl). lia.
    + simplify_eq. simpl. lia.
Qed.

Lemma match_integer_shorter s i r :
  match_integer s = Some (i, r) → String.length r < String.length s.
Proof.
  unfold match_integer. intros Hs.
  destruct s as [|c s]; [discriminate|].
  destruct (Ascii.eqb c "-").
  - destruct s as [|d s]; [discriminate|].
    destruct (Ascii.eqb d "0"); [simplify_eq; simpl; lia|].
    destruct (is_digit d); [|discriminate].
    destruct (span_digits s) as [ds r'] eqn:E. simplify_eq.
    apply span_digits_length in E. simpl. lia.
  - destruct (Ascii.eqb c "0"); [simplify_eq; simpl; lia|].
    destruct (is_digit c); [|discriminate].
    destruct (span_digits s) as [ds r'] eqn:E. simplify_eq.
    apply span_digits_length in E. simpl. lia.
Qed.

Lemma match_frac_length s f r :
  match_frac s = (f, r) → String.length r ≤ String.length s.
Proof.
  unfold match_frac. intros Hs.
  destruct s as [|c s]; [by simplify_eq|].
  destruct (Ascii.eqb c "."); [|by simplify_eq].
  destruct (span_digits s) as [[|d ds] r'] eqn:E; simplify_eq; [done|].
  apply span_digits_length in E. simpl. lia.
Qed.

Lemma match_exp_length s e r :
  match_exp s = (e, r) → String.length r ≤ String.length s.
Proof.
  unfold match_exp. intros Hs.
  destruct s as [|c s]; [by simplify_eq|].
  destruct (Ascii.eqb c "e" || Ascii.eqb c "E"); [|by simplify_eq].
  destruct s as [|d s].
  - simpl in Hs. by simplify_eq.
  - destruct (Ascii.eqb d "-" || Ascii.eqb d "+").
    + destruct (span_digits s) as [[|x ds] r'] eqn:E; simplify_eq; [done|].
      apply span_digits_length in E. simpl. lia.
    + destruct (span_digits (String d s)) as [[|x ds] r'] eqn:E; simplify_eq; [done|].
      apply span_digits_length in E. simpl in *. lia.
Qed.

Lemma match_number_shorter s n r :
  match_number s = Some (n, r) → String.length r < String.length s.
Proof.
  unfold match_number. intros Hs.
  destruct (match_integer s) as [[i r0]|] eqn:Ei; [|discriminate].
  destruct (match_frac r0) as [f r1] eqn:Ef.
  destruct (match_exp r1) as [e r2] eqn:Ee. simplify_eq.
  apply match_integer_shorter in Ei. apply match_frac_length in Ef.
  apply match_exp_length in Ee. lia.
Qed.

Lemma strip_prefix_length p s r :
  strip_prefix p s = Some r → String.length s = String.length p + String.length r.
Proof.
  revert s. induction p as [|a p IH]; intros s Hs; simpl in *.
  - by simplify_eq.
  - destruct s as [|b s]; [discriminate|].
    destruct (Ascii.eqb a b); [|discriminate]. simpl. rewrite (IH _ Hs). lia.
Qed.

Lemma scan_atom_shorter s v r :
  scan_atom s = Parsed v r → String.length r < String.length s.
Proof.
  unfold scan_atom, constant. intros Hs.
  repeat match type of Hs with
  | context [match strip_prefix ?p s with _ => _ end] =>
      let E := fresh "E" in destruct (strip_prefix p s) eqn:E;
      [apply strip_prefix_length in E; simpl in E; simplify_eq; lia|]
  | context [match match_number s with _ => _ end] =>
      let E := fresh "E" in destruct (match_number s) as [[? ?]|] eqn:E;
      [apply match_number_shorter in E; simplify_eq; lia|]
  end.
  discriminate.
Qed.

Lemma scan_atom_fuel s : scan_atom s ≠ NoFuel.
Proof.
  unfold scan_atom, constant.
  repeat match goal with
  | |- context [match strip_prefix ?p s with _ => _ end] => destruct (strip_prefix p s)
  | |- context [match match_number s with _ => _ end] => destruct (match_number s) as [[? ?]|]
  end; discriminate.
Qed.

Ltac split_scan H :=
  repeat match type of H with
  | context [match scanstring ?x with _ => _ end] =>
      let E := fresh "E" in destruct (scanstring x) as [[? ?]|] eqn:E;
      [apply scanstring_shorter in E|]
  | context [match scan_once ?n ?x with _ => _ end] =>
      let E := fresh "E" in destruct (scan_once n x) eqn:E
  | context [match JSONObject ?n ?x with _ => _ end] =>
      let E := fresh "E" in destruct (JSONObject n x) eqn:E
  | context [match JSONArray ?n ?x with _ => _ end] =>
      let E := fresh "E" in destruct (JSONArray n x) eqn:E
  | context [match skip_ws ?x with _ => _ end] =>
      let E := fresh "E" in
      pose proof (skip_ws_length x) as E; destruct (skip_ws x); simpl in E
  | context [if ?b then _ else _] => destruct b
  end.

Ltac ws_bounds :=
  repeat match goal with
  | H : context [skip_ws ?x] |- _ =>
      lazymatch goal with
      | _ : String.length (skip_ws x) ≤ String.length x |- _ => fail
      | _ => pose proof (skip_ws_length x)
      end
  end.

Lemma scan_shorter n :
  (∀ s v r, scan_once n s = Parsed v r → String.length r < String.length s)
  ∧ (∀ s ms r, JSONObject n s = Parsed ms r → String.length r < String.length s)
  ∧ (∀ s xs r, JSONArray n s = Parsed xs r → String.length r < String.length s).
Proof.
  induction n as [|n (IHv & IHo & IHa)]; [repeat split; intros; discriminate|].
  repeat split.
  - intros s v r Hs. destruct s as [|c s]; [discriminate|].
    cbn [scan_once] in Hs. split_scan Hs; simplify_eq;
      try (apply scan_atom_shorter in Hs); simpl in *;
      repeat match goal with
      | E : JSONObject n _ = Parsed _ _ |- _ => apply IHo in E
      | E : JSONArray n _ = Parsed _ _ |- _ => apply IHa in E
      end; ws_bounds; simpl in *; lia.
  - intros s ms r Hs. cbn [JSONObject] in Hs. split_scan Hs; simplify_eq;
      repeat match goal with
      | E : scan_once n _ = Parsed _ _ |- _ => apply IHv in E
      | E : JSONObject n _ = Parsed _ _ |- _ => apply IHo in E
      end; ws_bounds; simpl in *; lia.
  - intros s xs r Hs. cbn [JSONArray] in Hs. split_scan Hs; simplify_eq;
      repeat match goal with
      | E : scan_once n _ = Parsed _ _ |- _ => apply IHv in E
      | E : JSONArray n _ = Parsed _ _ |- _ => apply IHa in E
      end; ws_bounds; simpl in *; lia.
Qed.

Ltac shorten n :=
  repeat match goal with
  | E : scan_once n _ = Parsed _ _ |- _ => apply (proj1 (scan_shorter n)) in E
  | E : JSONObject n _ = Parsed _ _ |- _ => apply (proj1 (proj2 (scan_shorter n))) in E
  | E : JSONArray n _ = Parsed _ _ |- _ => apply (proj2 (proj2 (scan_shorter n))) in E
  end.

Lemma scan_fuel n :
  (∀ s, 2 * String.length s < n → scan_once n s ≠ NoFuel)
  ∧ (∀ s, 2 * String.length s < n → JSONObject n s ≠ NoFuel)
  ∧ (∀ s, 2 * String.length s + 1 < n → JSONArray n s ≠ NoFuel).
Proof.
  induction n as [|n (IHv & IHo & IHa)]; [repeat split; intros; lia|].
  repeat split.
  - intros s Hn Hs. destruct s as [|c s]; [discriminate|].
    cbn [scan_once] in Hs. split_scan Hs; simplify_eq;
      try (by apply scan_atom_fuel in Hs);
      match goal with
      | E : JSONObject n _ = NoFuel |- _ => apply IHo in E; [done|]
      | E : JSONArray n _ = NoFuel |- _ => apply IHa in E; [done|]
      end; ws_bounds; simpl in *; lia.
  - intros s Hn Hs. cbn [JSONObject] in Hs. split_scan Hs; simplify_eq;
      shorten n;
      match goal with
      | E : JSONObject n _ = NoFuel |- _ => apply IHo in E; [done|]
      | E : scan_once n _ = NoFuel |- _ => apply IHv in E; [done|]
      end; ws_bounds; simpl in *; lia.
  - intros s Hn Hs. cbn [JSONArray] in Hs. split_scan Hs; simplify_eq;
      shorten n;
      match goal with
      | E : JSONArray n _ = NoFuel |- _ => apply IHa in E; [done|]
      | E : scan_once n _ = NoFuel |- _ => apply IHv in E; [done|]
      end; ws_bounds; simpl in *; lia.
Qed.

(** The fuel [json_loads] gives [scan_once] is never used up. *)
Lemma json_loads_fuel s :
  scan_once (S (2 * String.length s)) (skip_ws s) ≠ NoFuel.
Proof.
  apply (proj1 (scan_fuel _)). pose proof (skip_ws_length s). lia.
Qed.

(** ** Plain strings read back *)

Lemma scanstring_plain s r :
  json_plain s = true → scanstring (s +:+ String "034" r) = Some (s, r).
Proof.
  induction s as [|c s IH]; intros Hs; [reflexivity|].
  simpl in Hs. apply andb_prop in Hs as [Hc Hs].
  unfold plain_char in Hc. 
  apply andb_prop in Hc as [Hc Hctl]. apply andb_prop in Hc as [Hq Hb].
  apply negb_true_iff in Hq, Hb, Hctl.
  change (String c s +:+ String "034" r) with (String c (s +:+ String "034" r)).
  cbn [scanstring]. rewrite Hq, Hb, Hctl, (IH Hs). reflexivity.
Qed.

Lemma py_format_record c s b :
  py_format (lit "{`clientName`: `%s`, `subId`: `%s`, `bookmark`: `%s`}") [c; s; b]
  = Ok (bookmark_record c s b).
Proof. reflexivity. Qed.

Lemma py_format_filter c :
  py_format "/clientName = '%s'" [c] = Ok (client_filter c).
Proof. reflexivity. Qed.


Lemma bookmark_record_eq c s b :
  bookmark_record c s b
  = String "{" (quoted "clientName" (String ":" (String " " (quoted c
      (String "," (String " " (quoted "subId" (String ":" (String " " (quoted s
      (String "," (String " " (quoted "bookmark" (String ":" (String " " (quoted b
      (String "}" ""))))))))))))))))).
Proof. reflexivity. Qed.

Ltac scan_step :=
  cbn [scan_once JSONObject JSONArray skip_ws is_ws Ascii.eqb Bool.eqb orb andb].

Lemma scan_once_record n c s b :
  json_plain c = true → json_plain s = true → json_plain b = true →
  scan_once (S (S (S (S (S n))))) (bookmark_record c s b)
  = Parsed (JObj [("clientName", JStr c); ("subId", JStr s); ("bookmark", JStr b)]) "".
Proof.
  intros Hc Hs Hb. rewrite bookmark_record_eq. unfold quoted.
  scan_step. rewrite (scanstring_plain "clientName") by reflexivity.
  scan_step. rewrite (scanstring_plain c) by done.
  scan_step. rewrite (scanstring_plain "subId") by reflexivity.
  scan_step. rewrite (scanstring_plain s) by done.
  scan_step. rewrite (scanstring_plain "bookmark") by reflexivity.
  scan_step. rewrite (scanstring_plain b) by done.
  scan_step. reflexivity.
Qed.

Lemma json_loads_record c s b :
  json_plain c = true → json_plain s = true → json_plain b = true →
  json_loads (bookmark_record c s b)
  = Ok (JObj [("clientName", JStr c); ("subId", JStr s); ("bookmark", JStr b)]).
Proof.
  intros Hc Hs Hb. unfold json_loads.
  assert (skip_ws (bookmark_record c s b) = bookmark_record c s b) as ->
    by (rewrite bookmark_record_eq; reflexivity).
  assert (∃ n, S (2 * String.length (bookmark_record c s b)) = S (S (S (S (S n)))))
    as [n ->].
  { rewrite bookmark_record_eq. unfold quoted.
    match goal with |- context [String "{" (String _ ?x)] => generalize x end.
    intros x. exists (2 * String.length x). cbn [String.length]. lia. }
  rewrite scan_once_record by done. reflexivity.
Qed.

(** ** The store over any client *)

Section StoreFacts.
Context {H W : Type} `{!AMPSClient H W}.
Implicit Types (self : sow_bookmark_store H) (w : W) (m message : Message).

Lemma discard_message_absent self m w :
  get_sub_id m = None ∨ get_bookmark m = None →
  discard_message self m w = (Ok (), self, w).
Proof.
  unfold discard_message. intros [Hm | Hm]; rewrite Hm; [|done].
  by destruct (get_bookmark m).
Qed.

Lemma discard_message_present self m w s b :
  get_sub_id m = Some s → get_bookmark m = Some b →
  discard_message self m w =
    match publish (_internalClient self) (_topic self)
            (bookmark_record (_trackedName self) s b) w with
    | (Ok _, w') =>
      (Ok (),
       mkStore (_internalClient self) (_trackedName self) (_topic self)
         (<[KStr s := JStr b]> (_mostRecentBookmark self)),
       w')
    | (Raise aex, w') =>
      (Raise (AMPS (WithContext "Error updating bookmark store" aex)), self, w')
    end.
Proof.
  intros Hs Hb. unfold discard_message. rewrite Hs, Hb, py_format_record.
  reflexivity.
Qed.

(** A discard changes the entry of [s] only when it succeeds on a message
    that carries [s] and a bookmark. *)
Lemma discard_message_frame self m w r self' w' s :
  discard_message self m w = (r, self', w') →
  ¬ (r = Ok () ∧ get_sub_id m = Some s ∧ is_Some (get_bookmark m)) →
  _mostRecentBookmark self' !! KStr s = _mostRecentBookmark self !! KStr s.
Proof.
  intros Hd Hn.
  destruct (get_sub_id m) as [s0|] eqn:Hs; [destruct (get_bookmark m) as [b0|] eqn:Hb|].
  - rewrite (discard_message_present _ _ _ s0 b0) in Hd by done.
    destruct (publish _ _ _ w) as [[[]|aex] w1]; simplify_eq; [|done].
    simpl. destruct (decide (s0 = s)) as [->|Hne].
    + exfalso. apply Hn. eauto.
    + rewrite lookup_insert_ne; [done | congruence].
  - rewrite discard_message_absent in Hd by auto. by simplify_eq.
  - rewrite discard_message_absent in Hd by auto. by simplify_eq.
Qed.

Lemma discard_message_success self m w self' w' s b :
  discard_message self m w = (Ok (), self', w') →
  get_sub_id m = Some s → get_bookmark m = Some b →
  _mostRecentBookmark self' !! KStr s = Some (JStr b).
Proof.
  intros Hd Hs Hb. rewrite (discard_message_present _ _ _ s b) in Hd by done.
  destruct (publish _ _ _ w) as [[[]|aex] w1]; simplify_eq.
  simpl. apply lookup_insert_eq.
Qed.

Lemma discard_all_cons self m ms w :
  discard_all self (m :: ms) w =
    let '(r, self1, w1) := discard_message self m w in
    let '(rs, self2, w2) := discard_all self1 ms w1 in
    (r :: rs, self2, w2).
Proof. reflexivity. Qed.

Lemma discard_all_frame ms : ∀ self w rs self' w' s,
  discard_all self ms w = (rs, self', w') →
  (∀ j m', ms !! j = Some m' → get_sub_id m' = Some s →
           is_Some (get_bookmark m') → rs !! j ≠ Some (Ok ())) →
  _mostRecentBookmark self' !! KStr s = _mostRecentBookmark self !! KStr s.
Proof.
  induction ms as [|m ms IH]; intros self w rs self' w' s Hd Hfail.
  - by simplify_eq/=.
  - rewrite discard_all_cons in Hd.
    destruct (discard_message self m w) as [[r self1] w1] eqn:Hm.
    destruct (discard_all self1 ms w1) as [[rs1 self2] w2] eqn:Hrest.
    simplify_eq.
    rewrite (IH _ _ _ _ _ s Hrest).
    + eapply discard_message_frame; [done|].
      intros (-> & Hs & Hb). by apply (Hfail 0 m).
    + intros j m' Hj Hs Hb. by apply (Hfail (S j) m').
Qed.

Lemma most_recent_lookup self s w v :
  _mostRecentBookmark self !! KStr s = Some v →
  get_most_recent self s w = (Ok v, self, w).
Proof. intros Hl. unfold get_most_recent. by rewrite Hl. Qed.

(** C1. In a sequence of discards, once the discard of a message carrying
    subscription id [s] and bookmark [b] has succeeded, and as long as no
    later discard for [s] succeeds, [get_most_recent s] returns [b]: the
    bookmark of the message most recently discarded for [s]. *)
Theorem discard_most_recent ms : ∀ i self w rs self' w' m s b,
  discard_all self ms w = (rs, self', w') →
  ms !! i = Some m → get_sub_id m = Some s → get_bookmark m = Some b →
  rs !! i = Some (Ok ()) →
  (∀ j m', i < j → ms !! j = Some m' → get_sub_id m' = Some s →
           is_Some (get_bookmark m') → rs !! j ≠ Some (Ok ())) →
  get_most_recent self' s w' = (Ok (JStr b), self', w').
Proof.
  induction ms as [|m0 ms IH]; intros i self w rs self' w' m s b Hd Hi Hs Hb Hok Hlater;
    [done|].
  rewrite discard_all_cons in Hd.
  destruct (discard_message self m0 w) as [[r self1] w1] eqn:Hm.
  destruct (discard_all self1 ms w1) as [[rs1 self2] w2] eqn:Hrest.
  simplify_eq. destruct i as [|i]; simplify_eq/=.
  - apply most_recent_lookup.
    rewrite (discard_all_frame _ _ _ _ _ _ s Hrest).
    + by eapply discard_message_success.
    + intros j m' Hj Hs' Hb'. apply (Hlater (S j) m'); [lia|done..].
  - eapply (IH i); [done..|].
    intros j m' Hij Hj. apply (Hlater (S j) m'); [lia|done].
Qed.

(** C4. When [publish] raises during a discard, the exception reaches the
    caller wrapped with the context "Error updating bookmark store", the
    store object is the one before the call, and [get_most_recent] still
    returns what it returned before. *)
Theorem discard_publish_failure self m w s b aex w1 :
  get_sub_id m = Some s → get_bookmark m = Some b →
  publish (_internalClient self) (_topic self)
    (bookmark_record (_trackedName self) s b) w = (Raise aex, w1) →
  discard_message self m w
    = (Raise (AMPS (WithContext "Error updating bookmark store" aex)), self, w1)
  ∧ ∀ subid, (get_most_recent self subid w1).1.1 = (get_most_recent self subid w).1.1.
Proof.
  intros Hs Hb Hp. split.
  - by rewrite (discard_message_present _ _ _ s b), Hp.
  - intros subid. unfold get_most_recent. by destruct (_ !! _).
Qed.

(** C5, amended. A message whose subscription id or bookmark is absent
    ([None]) is discarded silently: same object, same world, no exception. *)
Theorem discard_absent_noop self m w :
  get_sub_id m = None ∨ get_bookmark m = None →
  discard_message self m w = (Ok (), self, w).
Proof. apply discard_message_absent. Qed.

(** C7. A subscription id without an entry in the map gets the epoch
    ["0"]; the lookup returns normally and leaves object and world as they
    were. *)
Theorem most_recent_epoch self subid w :
  _mostRecentBookmark self !! KStr subid = None →
  get_most_recent self subid w = (Ok (JStr "0"), self, w).
Proof. intros Hl. unfold get_most_recent. by rewrite Hl. Qed.

(** C8. [is_discarded] returns [False] for every message, whatever the
    object holds, and changes nothing. *)
Theorem is_discarded_false self m w :
  is_discarded self m w = (Ok false, self, w).
Proof. reflexivity. Qed.

(** C9. The two-argument [discard(subid, seqnumber)] does nothing: it
    returns normally, with the object and the world (hence the store) as
    they were. *)
Theorem discard_deprecated_noop self subid seqnumber w :
  discard self subid seqnumber w = (Ok (), self, w).
Proof. reflexivity. Qed.
End StoreFacts.

(** ** Recovery *)

(** *** The loop of [__init__] *)

Lemma recover_app l1 l2 d :
  recover (l1 ++ l2) d = recover l1 d ≫= recover l2.
Proof.
  revert d. induction l1 as [|m l1 IH]; intros d; simpl; [done|].
  destruct (recover_message m d) as [d'|e]; simpl; [apply IH | done].
Qed.

Lemma recover_message_skipped m d :
  skipped m = true → recover_message m d = Ok d.
Proof.
  unfold skipped, recover_message. intros Hskip.
  destruct (negb (String.eqb (get_command m) "sow")); [done|]. simpl in Hskip.
  destruct (json_loads (get_data m)) as [[]|]; try discriminate. simpl.
  destruct (bool_decide (is_Some (obj_get "bookmark" members))); [|done].
  simpl in *. by destruct (bool_decide (is_Some (obj_get "subId" members))).
Qed.

Lemma recover_skip l1 m l2 d :
  skipped m = true → recover (l1 ++ m :: l2) d = recover (l1 ++ l2) d.
Proof.
  intros Hskip. rewrite !recover_app.
  destruct (recover l1 d) as [d'|e]; simpl; [|done].
  by rewrite recover_message_skipped.
Qed.

Lemma recover_message_row row d k :
  row_key row = Some k → recover_message (sow_message row) d = Ok (apply_row d row).
Proof.
  unfold apply_row, row_bookmark, row_key, recover_message. simpl.
  destruct (json_loads row) as [[]|]; try discriminate.
  destruct (obj_get "clientName" members) as [c|]; [|discriminate].
  destruct (obj_get "subId" members) as [s|] eqn:Hs; [|discriminate].
  destruct (py_hashable c) as [kc|]; [|discriminate].
  destruct (py_hashable s) as [ks|] eqn:Hks; [|discriminate].
  intros _. cbn [mbind result_bind py_contains py_getitem].
  destruct (obj_get "bookmark" members) as [v|] eqn:Hv.
  - rewrite bool_decide_eq_true_2 by eauto. cbn [negb].
    rewrite Hs. rewrite bool_decide_eq_true_2 by eauto. cbn [negb].
    simpl. by rewrite Hks.
  - rewrite bool_decide_eq_false_2; [done|]. by intros [? ?].
Qed.

Lemma recover_rows rows : ∀ d,
  Forall (λ row, is_Some (row_key row)) rows →
  recover (map sow_message rows) d = Ok (foldl apply_row d rows).
Proof.
  induction rows as [|row rows IH]; intros d Hk; [done|].
  inversion Hk as [|? ? [k Hk'] Hrows]; subst. simpl.
  rewrite (recover_message_row _ _ _ Hk'). simpl. by apply IH.
Qed.

(** *** The map built from keyed rows *)

Lemma apply_row_other d row k :
  (∀ kc, row_key row ≠ Some (kc, k)) → apply_row d row !! k = d !! k.
Proof.
  unfold apply_row. intros Hne.
  destruct (row_key row) as [[kc ks]|]; [|done].
  destruct (row_bookmark row); [|done].
  rewrite lookup_insert_ne; [done|]. intros ->. by apply (Hne kc).
Qed.

Lemma foldl_apply_row_other rows : ∀ d k,
  (∀ row kc, row ∈ rows → row_key row ≠ Some (kc, k)) →
  foldl apply_row d rows !! k = d !! k.
Proof.
  induction rows as [|row rows IH]; intros d k Hne; [done|]. simpl.
  rewrite IH by (intros ???; apply Hne; by right).
  apply apply_row_other. intros kc. apply Hne. by left.
Qed.

Lemma foldl_apply_row_found rows : ∀ d row kc k v,
  NoDup (omap row_key rows) →
  (∀ r kc', r ∈ rows → row_key r = Some (kc', k) → kc' = kc) →
  row ∈ rows → row_key row = Some (kc, k) → row_bookmark row = Some v →
  foldl apply_row d rows !! k = Some v.
Proof.
  induction rows as [|r rows IH]; intros d row kc k v Hnd Hsame Hin Hk Hv.
  { by apply elem_of_nil in Hin. }
  simpl. destruct (decide (row_key r = Some (kc, k))) as [Hr|Hr].
  - simpl in Hnd. rewrite Hr in Hnd.
    pose proof (NoDup_cons_1_1 _ _ Hnd) as Hfresh.
    assert (row = r) as ->.
    { apply elem_of_cons in Hin as [->|Hin]; [done|].
      exfalso. apply Hfresh. apply list_elem_of_omap. eauto. }
    rewrite foldl_apply_row_other.
    + unfold apply_row. rewrite Hk, Hv. apply lookup_insert_eq.
    + intros r' kc' Hin' Hk'.
      assert (kc' = kc) as -> by (apply (Hsame r'); [by right | done]).
      apply Hfresh. apply list_elem_of_omap. eauto.
  - apply elem_of_cons in Hin as [->|Hin]; [done|].
    apply (IH _ row kc); try done.
    + simpl in Hnd. destruct (row_key r); [by apply NoDup_cons_1_2 in Hnd | done].
    + intros r' kc' Hin'. apply Hsame. by right.
Qed.

Lemma foldl_apply_row_origin rows : ∀ d k v,
  foldl apply_row d rows !! k = Some v →
  d !! k = Some v
  ∨ ∃ row kc, row ∈ rows ∧ row_key row = Some (kc, k) ∧ row_bookmark row = Some v.
Proof.
  induction rows as [|r rows IH]; intros d k v Hl; [by left|].
  simpl in Hl. apply IH in Hl as [Hl | (row & kc & Hin & Hk & Hv)].
  - unfold apply_row in Hl.
    destruct (row_key r) as [[kc ks]|] eqn:Hk; [|by left].
    destruct (row_bookmark r) as [v'|] eqn:Hv; [|by left].
    destruct (decide (ks = k)) as [->|Hne].
    + rewrite lookup_insert_eq in Hl. simplify_eq.
      right. exists r, kc. split; [by left | done].
    + rewrite lookup_insert_ne in Hl by done. by left.
  - right. exists row, kc. split; [by right | done].
Qed.

(** *** Construction over the server *)

Lemma drop_closing_quote_app c : drop_closing_quote (c +:+ "'") = Some c.
Proof.
  induction c as [|a c IH]; [reflexivity|].
  change (String a c +:+ "'") with (String a (c +:+ "'")).
  cbn [drop_closing_quote]. rewrite IH.
  destruct c; reflexivity.
Qed.

Lemma filter_name_client c : filter_name (client_filter c) = Some c.
Proof.
  unfold filter_name.
  change (strip_prefix "/clientName = '" (client_filter c)) with (Some (c +:+ "'")).
  apply drop_closing_quote_app.
Qed.

Lemma client_rows_keyed c topic w :
  Forall (λ row, is_Some (row_key row)) (client_rows c topic w).
Proof.
  apply Forall_forall. intros row [Hc _]%list_elem_of_filter.
  unfold row_client in Hc. destruct (row_key row); [eauto | discriminate].
Qed.

Lemma recover_stream rows d :
  Forall (λ row, is_Some (row_key row)) rows →
  recover (group_begin :: map sow_message rows ++ [group_end]) d
  = Ok (foldl apply_row d rows).
Proof.
  intros Hk.
  change (group_begin :: ?l ++ [group_end]) with ([group_begin] ++ l ++ [group_end]).
  rewrite recover_app. change (recover [group_begin] d) with (@Ok exn _ d).
  change (Ok d ≫= ?f) with (f d).
  rewrite recover_app, recover_rows by done. reflexivity.
Qed.

Lemma init_server h topic c w :
  h ∈ connected w →
  __init__ h topic c w
  = (Ok (mkStore h c topic (foldl apply_row ∅ (client_rows c topic w))), w).
Proof.
  intros Hconn. unfold __init__. cbn [_trackedName _internalClient _topic].
  rewrite py_format_filter. cbn [sow server_client]. unfold server_sow.
  rewrite bool_decide_eq_true_2 by done. rewrite filter_name_client.
  fold (client_rows c topic w). cbn [_mostRecentBookmark].
  rewrite recover_stream by apply client_rows_keyed. reflexivity.
Qed.

(** ** The store over the server *)

Lemma record_fields_key row c s v :
  record_fields row = Some (JStr c, JStr s, v) →
  row_key row = Some (KStr c, KStr s) ∧ row_bookmark row = Some v.
Proof.
  unfold record_fields, row_key, row_bookmark.
  destruct (json_loads row) as [[]|]; try discriminate.
  destruct (obj_get "clientName" members) as [c'|]; [|discriminate].
  destruct (obj_get "subId" members) as [s'|]; [|discriminate].
  destruct (obj_get "bookmark" members) as [v'|]; [|discriminate].
  intros; by simplify_eq.
Qed.

Lemma row_key_record c s b :
  json_plain c = true → json_plain s = true → json_plain b = true →
  row_key (bookmark_record c s b) = Some (KStr c, KStr s)
  ∧ row_bookmark (bookmark_record c s b) = Some (JStr b).
Proof.
  intros Hc Hs Hb. apply record_fields_key. unfold record_fields.
  rewrite json_loads_record by done. reflexivity.
Qed.

Lemma keys_unique_filter (P : string → Prop) `{!∀ x, Decision (P x)} rows :
  keys_unique rows → keys_unique (filter P rows).
Proof.
  unfold keys_unique. induction rows as [|r rows IH]; [done|].
  intros Hnd. rewrite filter_cons. simpl in Hnd.
  assert (NoDup (omap row_key rows)) as Hrest.
  { destruct (row_key r); [by apply NoDup_cons_1_2 in Hnd | done]. }
  destruct (decide (P r)); [|by apply IH].
  simpl. destruct (row_key r) as [k|] eqn:Hk; [|by apply IH].
  apply NoDup_cons_2; [|by apply IH].
  intros (x & [_ Hx]%list_elem_of_filter & Hkx)%list_elem_of_omap.
  apply (NoDup_cons_1_1 _ _ Hnd). apply list_elem_of_omap. eauto.
Qed.

Lemma client_rows_key c topic w row :
  row ∈ client_rows c topic w ↔
  row ∈ rows_of topic w ∧ ∃ ks, row_key row = Some (KStr c, ks).
Proof.
  unfold client_rows, row_client. rewrite list_elem_of_filter. split.
  - intros [Hc Hin]. split; [done|].
    destruct (row_key row) as [[kc ks]|]; simplify_eq/=; eauto.
  - intros [Hin [ks Hk]]. by rewrite Hk.
Qed.

(** C2. Over a store with at most one row per key, the index built for
    client [c] by a connected client holds, for every stored record
    [{clientName: c, subId: s, bookmark: b}], the bookmark [b] under [s];
    and every entry of its map comes from a row whose [clientName] is [c]. *)
Theorem recovery_round_trip h topic c w :
  h ∈ connected w → keys_unique (rows_of topic w) →
  ∃ idx, __init__ h topic c w = (Ok idx, w)
    ∧ (∀ row s b, row ∈ rows_of topic w →
         record_fields row = Some (JStr c, JStr s, JStr b) →
         get_most_recent idx s w = (Ok (JStr b), idx, w))
    ∧ (∀ k v, _mostRecentBookmark idx !! k = Some v →
         ∃ row, row ∈ rows_of topic w ∧ row_key row = Some (KStr c, k)
                ∧ row_bookmark row = Some v).
Proof.
  intros Hconn Huniq. eexists. split; [by apply init_server|]. split.
  - intros row s b Hin [Hk Hv]%record_fields_key.
    apply most_recent_lookup. cbn [_mostRecentBookmark].
    apply (foldl_apply_row_found _ _ row (KStr c)); try done.
    + by apply keys_unique_filter.
    + intros r kc' [_ [ks Hr]]%client_rows_key Hr'. congruence.
    + apply client_rows_key. eauto.
  - intros k v Hl. cbn [_mostRecentBookmark] in Hl.
    apply foldl_apply_row_origin in Hl as [Hl | (row & kc & Hin & Hk & Hv)]; [done|].
    apply client_rows_key in Hin as [Hin [ks Hk']].
    exists row. split; [done|]. split; [congruence | done].
Qed.

(** *** One discard on the server *)

Lemma discard_server (self : sow_bookmark_store string) m w s b :
  _internalClient self ∈ connected w →
  get_sub_id m = Some s → get_bookmark m = Some b →
  discard_message self m w
  = (Ok (),
     mkStore (_internalClient self) (_trackedName self) (_topic self)
       (<[KStr s := JStr b]> (_mostRecentBookmark self)),
     mkWorld (connected w)
       (<[_topic self :=
            sow_upsert (rows_of (_topic self) w) (bookmark_record (_trackedName self) s b)]>
          (topics w))).
Proof.
  intros Hconn Hs Hb. rewrite (discard_message_present _ _ _ s b) by done.
  cbn [publish server_client]. unfold server_publish.
  by rewrite bool_decide_eq_true_2.
Qed.

Lemma rows_of_insert topic rows conn t :
  rows_of topic (mkWorld conn (<[topic := rows]> t)) = rows.
Proof. unfold rows_of. cbn [topics]. by rewrite lookup_insert_eq. Qed.

Lemma sow_upsert_keyed rows data k :
  row_key data = Some k →
  sow_upsert rows data = filter (fun row => row_key row ≠ Some k) rows ++ [data].
Proof. unfold sow_upsert. by intros ->. Qed.

Lemma sow_upsert_twice rows data :
  sow_upsert (sow_upsert rows data) data = sow_upsert rows data.
Proof.
  destruct (row_key data) as [k|] eqn:Hk.
  - rewrite !(sow_upsert_keyed _ _ _ Hk), filter_app.
    rewrite (filter_singleton_False _ data []), app_nil_r by (intros Hne; by apply Hne).
    f_equal.
    rewrite list_filter_filter. apply list_filter_iff. tauto.
  - unfold sow_upsert. by rewrite Hk.
Qed.


Lemma client_rows_upsert c s b topic conn t rows :
  json_plain c = true → json_plain s = true → json_plain b = true →
  client_rows c topic (mkWorld conn (<[topic := sow_upsert rows (bookmark_record c s b)]> t))
  = filter (fun row => row_client row = Some (KStr c))
      (filter (fun row => row_key row ≠ Some (KStr c, KStr s)) rows)
    ++ [bookmark_record c s b].
Proof.
  intros Hc Hs Hb. destruct (row_key_record c s b Hc Hs Hb) as [Hk _].
  unfold client_rows. rewrite rows_of_insert, (sow_upsert_keyed _ _ _ Hk), filter_app.
  rewrite (filter_singleton_True _ (bookmark_record c s b) []); [done|].
  unfold row_client. by rewrite Hk.
Qed.

(** C3, amended. When the tracked client's name, the subscription id [s]
    and the bookmark [b] hold no quote, no backslash and no control
    character, a discard of a message carrying ([s], [b]) through an index
    whose client is connected succeeds, and an index then built for the same
    client and topic over the resulting store returns [b] for [s]. *)
Theorem discard_then_recover (self : sow_bookmark_store string) h m w s b :
  _internalClient self ∈ connected w → h ∈ connected w →
  json_plain (_trackedName self) = true → json_plain s = true → json_plain b = true →
  get_sub_id m = Some s → get_bookmark m = Some b →
  ∃ self1 w1 idx,
    discard_message self m w = (Ok (), self1, w1)
    ∧ __init__ h (_topic self) (_trackedName self) w1 = (Ok idx, w1)
    ∧ get_most_recent idx s w1 = (Ok (JStr b), idx, w1).
Proof.
  intros Hconn Hh Hc Hs Hb Hsub Hbm.
  eexists _, _, _. split; [by apply discard_server|].
  split; [by apply init_server|].
  apply most_recent_lookup. cbn [_mostRecentBookmark].
  rewrite client_rows_upsert, foldl_app by done. cbn [foldl].
  destruct (row_key_record (_trackedName self) s b Hc Hs Hb) as [Hk Hv].
  unfold apply_row at 1. rewrite Hk, Hv. apply lookup_insert_eq.
Qed.

(** *** Texts the server keys under the pair *)

(** The record text reads as a JSON object of the given client and
    subscription id when these two hold no quote, backslash or control
    character and the bookmark, between quotes, is a JSON string: a
    bookmark with escapes such as [4\t2] is one. *)
Lemma json_loads_record_escaped c s b b' :
  json_plain c = true → json_plain s = true →
  scanstring (b +:+ String "034" (String "}" EmptyString))
    = Some (b', String "}" EmptyString) →
  json_loads (bookmark_record c s b)
  = Ok (JObj [("clientName", JStr c); ("subId", JStr s); ("bookmark", JStr b')]).
Proof.
  intros Hc Hs Hb. unfold json_loads.
  assert (skip_ws (bookmark_record c s b) = bookmark_record c s b) as ->
    by (rewrite bookmark_record_eq; reflexivity).
  assert (∃ n, S (2 * String.length (bookmark_record c s b)) = S (S (S (S (S n)))))
    as [n ->].
  { rewrite bookmark_record_eq. unfold quoted.
    match goal with |- context [String "{" (String _ ?x)] => generalize x end.
    intros x. exists (2 * String.length x). cbn [String.length]. lia. }
  rewrite bookmark_record_eq. unfold quoted.
  scan_step. rewrite (scanstring_plain "clientName") by reflexivity.
  scan_step. rewrite (scanstring_plain c) by done.
  scan_step. rewrite (scanstring_plain "subId") by reflexivity.
  scan_step. rewrite (scanstring_plain s) by done.
  scan_step. rewrite (scanstring_plain "bookmark") by reflexivity.
  scan_step. rewrite Hb.
  scan_step. reflexivity.
Qed.

Lemma row_key_record_escaped c s b b' :
  json_plain c = true → json_plain s = true →
  scanstring (b +:+ String "034" (String "}" EmptyString))
    = Some (b', String "}" EmptyString) →
  row_key (bookmark_record c s b) = Some (KStr c, KStr s).
Proof.
  intros Hc Hs Hb. unfold row_key.
  rewrite (json_loads_record_escaped c s b b') by done. reflexivity.
Qed.

Example row_key_escaped_bookmark :
  row_key (bookmark_record "haclient" "orders-1" "4\t2")
  = Some (KStr "haclient", KStr "orders-1").
Proof. vm_compute. reflexivity. Qed.

(** A second discard of the same message through a connected client leaves
    the index and the store as the first left them, whatever the key the
    server reads in the text. *)
Lemma discard_again (self : sow_bookmark_store string) m w s b k :
  _internalClient self ∈ connected w →
  row_key (bookmark_record (_trackedName self) s b) = Some k →
  get_sub_id m = Some s → get_bookmark m = Some b →
  ∃ self1 w1,
    discard_message self m w = (Ok (), self1, w1)
    ∧ discard_message self1 m w1 = (Ok (), self1, w1)
    ∧ get_most_recent self1 s w1 = (Ok (JStr b), self1, w1)
    ∧ rows_of (_topic self) w1
      = filter (fun row => row_key row ≠ Some k) (rows_of (_topic self) w)
        ++ [bookmark_record (_trackedName self) s b].
Proof.
  intros Hconn Hk Hsub Hbm.
  eexists _, _. split; [by apply discard_server|]. split; [|split].
  - rewrite (discard_server _ m _ s b) by done.
    cbn [_internalClient _trackedName _topic _mostRecentBookmark connected topics].
    rewrite rows_of_insert, sow_upsert_twice, !insert_insert_eq. reflexivity.
  - apply most_recent_lookup. cbn [_mostRecentBookmark]. apply lookup_insert_eq.
  - rewrite rows_of_insert. by apply sow_upsert_keyed.
Qed.

(** When the server reads another key in the text, the discards leave the
    records of the pair as they were: none, over a store that had none. *)
Lemma discard_keyed_elsewhere (self : sow_bookmark_store string) m w s b k :
  _internalClient self ∈ connected w →
  row_key (bookmark_record (_trackedName self) s b) = Some k →
  k ≠ (KStr (_trackedName self), KStr s) →
  get_sub_id m = Some s → get_bookmark m = Some b →
  ∃ self1 w1,
    discard_message self m w = (Ok (), self1, w1)
    ∧ records_for (_trackedName self) s (_topic self) w1
      = records_for (_trackedName self) s (_topic self) w.
Proof.
  intros Hconn Hk Hne Hsub Hbm.
  destruct (discard_again self m w s b k Hconn Hk Hsub Hbm)
    as (self1 & w1 & Hfirst & _ & _ & Hrows).
  exists self1, w1. split; [done|].
  unfold records_for. rewrite Hrows, filter_app.
  rewrite (filter_singleton_False _ _ []) by congruence.
  rewrite app_nil_r, list_filter_filter. apply list_filter_iff.
  intros row. split; [tauto|]. intros Hrow. split; [done | congruence].
Qed.


Section Recovery.
Context {H W : Type} `{!AMPSClient H W}.




(** What [passed_over] says of the body: it is read as an object, an
    array or a string, and fails one of the two [in] tests. *)
Lemma passed_over_body m :
  get_command m = "sow" →
  (passed_over m = true ↔
   ∃ body, json_loads (get_data m) = Ok body
     ∧ (py_contains "bookmark" body = Ok false ∨ py_contains "subId" body = Ok false)).
Proof.
  intros Hcmd. unfold passed_over. rewrite Hcmd. cbn [String.eqb negb orb].
  change (negb (String.eqb "sow" "sow")) with false. cbn [orb].
  split.
  - destruct (json_loads (get_data m)) as [body|]; [|discriminate].
    intros Hpass. exists body. split; [done|].
    destruct body; simpl in *; try discriminate;
      repeat match goal with
      | H : context [bool_decide ?P] |- _ => destruct (bool_decide P)
      | |- context [bool_decide ?P] => destruct (bool_decide P)
      | H : context [existsb ?f ?l] |- _ => destruct (existsb f l)
      | H : context [is_substring ?a ?b] |- _ => destruct (is_substring a b)
      end; simpl in *; auto; discriminate.
  - intros (body & -> & Hlack).
    destruct body; simpl in *; destruct Hlack as [Hl|Hl]; try discriminate;
      injection Hl as ->; rewrite ?andb_false_r; reflexivity.
Qed.
End Recovery.

(** ** Invariants of the server *)

(** *** What the server returns *)

(** Every [sow] message the server returns carries a JSON object. *)
Lemma server_sow_objects h topic query w ms w1 m :
  server_sow h topic query w = (Ok ms, w1) → m ∈ ms → get_command m = "sow" →
  ∃ members, json_loads (get_data m) = Ok (JObj members).
Proof.
  unfold server_sow. destruct (bool_decide _); [|discriminate].
  destruct (filter_name query) as [name|]; [|discriminate].
  intros Hms Hm Hcmd. simplify_eq.
  apply elem_of_cons in Hm as [->|Hm]; [discriminate|].
  apply elem_of_app in Hm as [Hm|Hm].
  - apply list_elem_of_fmap in Hm as (row & -> & [Hc _]%list_elem_of_filter).
    unfold row_client, row_key in Hc. cbn [get_data sow_message].
    destruct (json_loads row) as [[]|]; try discriminate. eauto.
  - apply list_elem_of_singleton in Hm as ->. discriminate.
Qed.

(** Over the server a connected client always builds its index. *)
Lemma init_server_ok h topic c w :
  h ∈ connected w → ∃ idx, __init__ h topic c w = (Ok idx, w).
Proof. intros Hconn. eexists. by apply init_server. Qed.

(** *** The uniqueness of keys is an invariant of the server *)

Lemma keys_unique_upsert rows data :
  keys_unique rows → keys_unique (sow_upsert rows data).
Proof.
  intros Hu. unfold sow_upsert. destruct (row_key data) as [k|] eqn:Hk; [|done].
  unfold keys_unique. rewrite omap_app. apply NoDup_app. split; [|split].
  - by apply keys_unique_filter.
  - intros k' (row & [Hne _]%list_elem_of_filter & Hrow)%list_elem_of_omap.
    simpl. rewrite Hk. intros ->%list_elem_of_singleton. done.
  - simpl. rewrite Hk. apply NoDup_singleton.
Qed.

Lemma keys_unique_publish h topic data w r w1 t :
  (∀ t, keys_unique (rows_of t w)) →
  server_publish h topic data w = (r, w1) → keys_unique (rows_of t w1).
Proof.
  intros Hu. unfold server_publish. destruct (bool_decide _); intros; simplify_eq; [|done].
  destruct (decide (t = topic)) as [->|Hne].
  - rewrite rows_of_insert. by apply keys_unique_upsert.
  - unfold rows_of. cbn [topics]. rewrite lookup_insert_ne by done. apply Hu.
Qed.

Lemma keys_unique_world0 t : keys_unique (rows_of t world0).
Proof. unfold rows_of, world0. cbn [topics]. rewrite lookup_empty. constructor. Qed.

(** ** Where a property does not hold as stated *)

Example init_world0 :
  __init__ "bkmrk" "/amps/bookmarkStore" "haclient" world0 = (Ok store0, world0).
Proof. reflexivity. Qed.

(** C3, as stated, fails: the bookmark [4\t2] (a backslash and a [t] in the
    middle) is published unescaped, and the record reads back with a tab. *)
Lemma escaped_bookmark_not_recovered :
  ¬ ∃ self1 w1 idx,
      discard_message store0 (message_of "orders-1" "4\t2" "{}") world0 = (Ok (), self1, w1)
      ∧ __init__ "bkmrk" "/amps/bookmarkStore" "haclient" w1 = (Ok idx, w1)
      ∧ get_most_recent idx "orders-1" w1 = (Ok (JStr "4\t2"), idx, w1).
Proof.
  intros (self1 & w1 & idx & Hd & Hi & Hg).
  rewrite (discard_server _ _ _ "orders-1" "4\t2") in Hd by (done || by vm_compute).
  injection Hd as <- <-.
  rewrite init_server in Hi by (by vm_compute).
  injection Hi as <-.
  vm_compute in Hg. discriminate Hg.
Qed.

Example escaped_bookmark_reads_back :
  let after := discard_message store0 (message_of "orders-1" "4\t2" "{}") world0 in
  match (__init__ "bkmrk" "/amps/bookmarkStore" "haclient" after.2).1 with
  | Ok fresh => (get_most_recent fresh "orders-1" after.2).1.1
  | Raise e => Raise e
  end = Ok (JStr (String "4" (String "009" (String "2" EmptyString)))).
Proof. vm_compute. reflexivity. Qed.

(** C5, as stated, fails: an empty subscription id is not [None], and the
    message is published and recorded. *)
Lemma discard_empty_subid_publishes :
  carries_both (message_of "" "7" "{}") = false
  ∧ discard_message store0 (message_of "" "7" "{}") world0 ≠ (Ok (), store0, world0).
Proof.
  split; [reflexivity|]. intros Hd.
  rewrite (discard_server _ _ _ "" "7") in Hd by (done || by vm_compute).
  apply (f_equal (λ o : outcome (), _mostRecentBookmark o.1.2 !! KStr "")) in Hd.
  vm_compute in Hd. discriminate Hd.
Qed.


Example escaped_subid_key :
  let after := discard_message store0 (message_of "a\tb" "1" "{}") world0 in
  map row_key (rows_of "/amps/bookmarkStore" after.2)
  = [Some (KStr "haclient", KStr (String "a" (String "009" (String "b" EmptyString))))].
Proof. vm_compute. reflexivity. Qed.

(** A fresh index over that store knows the bookmark under the other
    subscription id, and answers the epoch for the one discarded. *)
Example escaped_subid_recovery :
  let after := discard_message store0 (message_of "a\tb" "1" "{}") world0 in
  match (__init__ "bkmrk" "/amps/bookmarkStore" "haclient" after.2).1 with
  | Ok fresh =>
    [(get_most_recent fresh "a\tb" after.2).1.1;
     (get_most_recent fresh (String "a" (String "009" (String "b" EmptyString))) after.2).1.1]
  | Raise e => [Raise e]
  end = [Ok (JStr "0"); Ok (JStr "1")].
Proof. vm_compute. reflexivity. Qed.


(** ** Instances *)

Lemma discard_most_recent_witness :
  let '(rs, self', w') :=
    discard_all store0
      [message_of "orders-1" "41" "{}"; message_of "orders-1" "42" "{}"] world0 in
  get_most_recent self' "orders-1" w' = (Ok (JStr "42"), self', w').
Proof.
  destruct (discard_all store0 _ world0) as [[rs self'] w'] eqn:E.
  apply (discard_most_recent _ 1 _ _ _ _ _ (message_of "orders-1" "42" "{}")
           "orders-1" "42" E); try reflexivity.
  - vm_compute in E. injection E as <- _ _. reflexivity.
  - intros j m' Hj Hm'. destruct j as [|[|j]]; [lia | lia | discriminate Hm'].
Defined.

Lemma recovery_round_trip_witness :
  ∃ idx, __init__ "bkmrk" "/amps/bookmarkStore" "C" world2 = (Ok idx, world2)
    ∧ (∀ row s b, row ∈ rows_of "/amps/bookmarkStore" world2 →
         record_fields row = Some (JStr "C", JStr s, JStr b) →
         get_most_recent idx s world2 = (Ok (JStr b), idx, world2))
    ∧ (∀ k v, _mostRecentBookmark idx !! k = Some v →
         ∃ row, row ∈ rows_of "/amps/bookmarkStore" world2
                ∧ row_key row = Some (KStr "C", k) ∧ row_bookmark row = Some v).
Proof.
  apply recovery_round_trip.
  - vm_compute. reflexivity.
  - apply (bool_decide_unpack _). vm_compute. exact I.
Defined.

Example recovery_world2 :
  match (__init__ "bkmrk" "/amps/bookmarkStore" "C" world2).1 with
  | Ok idx =>
    ([(get_most_recent idx "S1" world2).1.1; (get_most_recent idx "S2" world2).1.1;
      (get_most_recent idx "S3" world2).1.1],
     size (_mostRecentBookmark idx))
  | Raise e => ([Raise e], 0)
  end = ([Ok (JStr "B1"); Ok (JStr "B2"); Ok (JStr "0")], 2).
Proof. vm_compute. reflexivity. Qed.

Lemma discard_then_recover_witness :
  ∃ self1 w1 idx,
    discard_message store0 (message_of "orders-1" "42" "{}") world0 = (Ok (), self1, w1)
    ∧ __init__ "bkmrk" "/amps/bookmarkStore" "haclient" w1 = (Ok idx, w1)
    ∧ get_most_recent idx "orders-1" w1 = (Ok (JStr "42"), idx, w1).
Proof.
  apply (discard_then_recover store0 "bkmrk" (message_of "orders-1" "42" "{}") world0
           "orders-1" "42"); reflexivity.
Defined.

Lemma discard_publish_failure_witness :
  discard_message store0 (message_of "orders-1" "42" "{}") world_down
  = (Raise (AMPS (WithContext "Error updating bookmark store"
                    (ClientError "DisconnectedException"))), store0, world_down)
  ∧ ∀ subid, (get_most_recent store0 subid world_down).1.1
             = (get_most_recent store0 subid world_down).1.1.
Proof.
  apply (discard_publish_failure store0 (message_of "orders-1" "42" "{}") world_down
           "orders-1" "42"); reflexivity.
Defined.

Lemma discard_absent_noop_witness :
  discard_message store0 (mkMessage "publish" "{}" None (Some "42")) world0
  = (Ok (), store0, world0).
Proof.
  apply (discard_absent_noop store0 (mkMessage "publish" "{}" None (Some "42")) world0).
  left. reflexivity.
Defined.


Lemma most_recent_epoch_witness :
  get_most_recent store0 "orders-1" world0 = (Ok (JStr "0"), store0, world0).
Proof. apply (most_recent_epoch store0 "orders-1" world0). reflexivity. Defined.


Example passed_over_bodies :
  map (λ body, passed_over (sow_message body))
    [lit "{`clientName`: `haclient`, `subId`: `orders-1`}"; "{}"; "[1, 2]";
     lit "[`bookmark`]"; lit "`some text`"; lit "`bookmark only`";
     "5"; "null"; "true"; "not json"; lit "[`bookmark`, `subId`]";
     lit "{`subId`: `s`, `bookmark`: `b`}"]
  = [true; true; true; true; true; true; false; false; false; false; false; false].
Proof. vm_compute. reflexivity. Qed.

(** * Further properties *)

(** ** What construction raises *)

(** *** The subscripts of the loop are guarded *)

Lemma recover_message_no_key_error m d : recover_message m d ≠ Raise KeyError.
Proof.
  unfold recover_message.
  destruct (negb (String.eqb (get_command m) "sow")); [discriminate|].
  unfold json_loads. destruct (scan_once _ _) as [v rest| |]; [|discriminate..].
  destruct (skip_ws rest); [|discriminate]. unfold mbind, result_bind.
  destruct v as [| | | | |ms]; cbn [py_contains py_getitem negb]; try discriminate.
  - destruct (is_substring _ _); [|discriminate].
    destruct (is_substring _ _); discriminate.
  - destruct (existsb _ _); [|discriminate].
    destruct (existsb _ _); discriminate.
  - destruct (obj_get "bookmark" ms) as [value|];
      [|rewrite bool_decide_eq_false_2 by (by intros [? ?]); discriminate].
    rewrite bool_decide_eq_true_2 by eauto. cbn [negb].
    destruct (obj_get "subId" ms) as [key|];
      [|rewrite bool_decide_eq_false_2 by (by intros [? ?]); discriminate].
    rewrite bool_decide_eq_true_2 by eauto. cbn [negb].
    destruct (py_hashable key); discriminate.
Qed.

Lemma recover_no_key_error ms : ∀ d, recover ms d ≠ Raise KeyError.
Proof.
  induction ms as [|m ms IH]; intros d; [discriminate|]. simpl.
  destruct (recover_message m d) as [d'|e] eqn:Hm; simpl; [apply IH|].
  intros [= ->]. by apply recover_message_no_key_error in Hm.
Qed.

Lemma recover_message_record m d s v :
  message_record m = Some (s, v) → recover_message m d = Ok (<[KStr s := v]> d).
Proof.
  unfold message_record, recover_message.
  destruct (String.eqb (get_command m) "sow"); [|discriminate].
  destruct (json_loads (get_data m)) as [[| | | | |ms]|]; try discriminate.
  destruct (obj_get "subId" ms) as [[| | |s'| |]|] eqn:Hs; try discriminate.
  destruct (obj_get "bookmark" ms) as [v'|] eqn:Hv; [|discriminate].
  intros [= -> ->]. unfold mbind, result_bind. cbn [negb py_contains py_getitem].
  rewrite Hs, Hv, !bool_decide_eq_true_2 by eauto. reflexivity.
Qed.

Lemma recover_message_other m d d' s :
  recover_message m d = Ok d' → (∀ v, message_record m ≠ Some (s, v)) →
  d' !! KStr s = d !! KStr s.
Proof.
  unfold message_record, recover_message.
  destruct (String.eqb (get_command m) "sow"); simpl; [|by intros [= ->]].
  destruct (json_loads (get_data m)) as [v|]; [|discriminate]. simpl.
  destruct (py_contains "bookmark" v) as [[]|] eqn:Hb; simpl;
    [| by intros [= ->] | discriminate].
  destruct (py_contains "subId" v) as [[]|] eqn:Hs; simpl;
    [| by intros [= ->] | discriminate].
  destruct v as [| | | | |ms]; simpl in *; try discriminate.
  destruct (obj_get "bookmark" ms) as [value|]; simpl; [|discriminate].
  destruct (obj_get "subId" ms) as [key|]; simpl; [|discriminate].
  destruct (py_hashable key) as [k|] eqn:Hk; [|discriminate].
  intros [= <-] Hne. apply lookup_insert_ne. intros ->.
  destruct key; simplify_eq/=. by apply (Hne value).
Qed.

Lemma recover_other ms : ∀ d d' s,
  recover ms d = Ok d' →
  Forall (λ m, ∀ v, message_record m ≠ Some (s, v)) ms →
  d' !! KStr s = d !! KStr s.
Proof.
  induction ms as [|m ms IH]; intros d d' s Hr Hms; [by simplify_eq/=|].
  inversion Hms as [|? ? Hm Hrest]; subst. simpl in Hr.
  destruct (recover_message m d) as [d1|] eqn:Hd1; [|discriminate]. simpl in Hr.
  rewrite (IH _ _ _ Hr Hrest). by eapply recover_message_other.
Qed.

Section StoreMore.
Context {H W : Type} `{!AMPSClient H W}.
Implicit Types (self idx : sow_bookmark_store H) (w : W) (m message : Message).

Lemma init_unfold (h : H) topic c w :
__init__ h topic c w =
  match sow h topic (client_filter c) w with
  | (Raise aex, w') => (Raise (AMPS (WithContext "Error reading bookmark store" aex)), w')
  | (Ok messages, w') =>
    match recover messages ∅ with
    | Ok d => (Ok (mkStore h c topic d), w')
    | Raise (AMPS aex) =>
      (Raise (AMPS (WithContext "Error reading bookmark store" aex)), w')
    | Raise e => (Raise e, w')
    end
  end.
Proof.
unfold __init__. cbn [_trackedName _internalClient _topic _mostRecentBookmark].
by rewrite py_format_filter.
Qed.

(** X1. When the query of [__init__] raises, [__init__] raises the
  exception wrapped with the context "Error reading bookmark store", and
  builds no object. *)
Theorem init_query_failure (h : H) topic c w aex w1 :
sow h topic (client_filter c) w = (Raise aex, w1) →
__init__ h topic c w
= (Raise (AMPS (WithContext "Error reading bookmark store" aex)), w1).
Proof. intros Hsow. by rewrite init_unfold, Hsow. Qed.

(** X2. [__init__] never raises [KeyError]: the two subscripts are taken
  only after both [in] tests, so on an object the keys are there, and on
  an array or a string the subscript fails with [TypeError]. *)
Theorem init_no_key_error (h : H) topic c w w1 :
__init__ h topic c w ≠ (Raise KeyError, w1).
Proof.
rewrite init_unfold.
destruct (sow h topic (client_filter c) w) as [[ms|aex] w'] eqn:Hsow;
  [|discriminate].
destruct (recover ms ∅) as [d|e] eqn:Hr; [discriminate|].
destruct e; try discriminate. by apply recover_no_key_error in Hr.
Qed.

(** X3. A [sow] message whose body is not JSON makes [__init__] raise
  [ValueError], not wrapped, whatever messages follow it, once the
  messages before it have been read. *)
Theorem init_unreadable_record (h : H) topic c w w1 l1 m l2 d :
sow h topic (client_filter c) w = (Ok (l1 ++ m :: l2), w1) →
recover l1 ∅ = Ok d →
get_command m = "sow" → json_loads (get_data m) = Raise ValueError →
__init__ h topic c w = (Raise ValueError, w1).
Proof.
intros Hsow Hl1 Hcmd Hbody. rewrite init_unfold, Hsow, recover_app, Hl1.
simpl. unfold recover_message. rewrite Hcmd, Hbody. reflexivity.
Qed.

(** X4. Of the records a query returns for one subscription id, the last
  one stays: the index holds the [bookmark] value of the last [sow]
  message whose body is an object with that [subId]. *)
Theorem init_last_record_wins (h : H) topic c w w1 w2 idx l1 m l2 s v :
sow h topic (client_filter c) w = (Ok (l1 ++ m :: l2), w1) →
__init__ h topic c w = (Ok idx, w2) →
message_record m = Some (s, v) →
Forall (λ m', ∀ v', message_record m' ≠ Some (s, v')) l2 →
get_most_recent idx s w2 = (Ok v, idx, w2).
Proof.
intros Hsow Hinit Hm Hl2. rewrite init_unfold, Hsow in Hinit.
destruct (recover (l1 ++ m :: l2) ∅) as [d|e] eqn:Hr;
  [|destruct e; discriminate].
injection Hinit as <- <-. apply most_recent_lookup. cbn [_mostRecentBookmark].
rewrite recover_app in Hr.
destruct (recover l1 ∅) as [d1|] eqn:Hl1; [|discriminate]. simpl in Hr.
rewrite (recover_message_record _ _ _ _ Hm) in Hr. simpl in Hr.
rewrite (recover_other _ _ _ _ Hr Hl2). apply lookup_insert_eq.
Qed.

(** X5. A discard for one subscription id, whether it succeeds or raises,
  leaves what [get_most_recent] returns for every other subscription id. *)
Theorem discard_other_subscription self m w r self' w' s :
discard_message self m w = (r, self', w') →
get_sub_id m ≠ Some s →
(get_most_recent self' s w').1.1 = (get_most_recent self s w).1.1.
Proof.
intros Hd Hne. unfold get_most_recent.
rewrite (discard_message_frame _ _ _ _ _ _ s Hd) by (intros (_ & ? & _); done).
by destruct (_ !! _).
Qed.
End StoreMore.

(** ** Sequences of calls *)

Section HostFacts.
Context {H W : Type} `{!AMPSClient H W}.
Implicit Types (self idx : sow_bookmark_store H) (w : W) (m message : Message).

Lemma run_call_state self c w :
(run_call self c w).1.2 =
  match c with
  | DiscardMessage m => (discard_message self m w).1.2
  | _ => self
  end
∧ (run_call self c w).2 =
  match c with
  | DiscardMessage m => (discard_message self m w).2
  | _ => w
  end.
Proof.
destruct c; cbn [run_call]; try (unfold get_most_recent; destruct (_ !! _)); try done.
by destruct (discard_message self message w) as [[[] ?] ?].
Qed.

(** X6. Only [discard_message] changes anything: a sequence of calls to the
  methods of the store leaves the object and the world as the discards
  among them, made alone and in the same order, leave them. *)
Theorem run_calls_only_discards (cs : list call) : ∀ self w,
(run_calls self cs w).1.2 = (discard_all self (discarded_messages cs) w).1.2
∧ (run_calls self cs w).2 = (discard_all self (discarded_messages cs) w).2.
Proof.
induction cs as [|c cs IH]; intros self w; [done|].
cbn [run_calls]. destruct (run_call_state self c w) as [Hself Hw].
destruct (run_call self c w) as [[r self1] w1]. cbn [fst snd] in Hself, Hw.
specialize (IH self1 w1).
destruct (run_calls self1 cs w1) as [[rs self2] w2]. cbn [fst snd] in *.
destruct c; subst; try exact IH.
cbn [discarded_messages omap list_omap]. fold (discarded_messages cs).
rewrite discard_all_cons.
destruct (discard_message self message w) as [[r1 s1] w1'].
cbn [fst snd] in *.
by destruct (discard_all s1 (discarded_messages cs) w1') as [[rs1 s2] w2'].
Qed.

Lemma discard_message_fields self m w r self' w' :
discard_message self m w = (r, self', w') →
_internalClient self' = _internalClient self
∧ _trackedName self' = _trackedName self
∧ _topic self' = _topic self.
Proof.
destruct (get_sub_id m) as [s|] eqn:Hs; [destruct (get_bookmark m) as [b|] eqn:Hb|].
- rewrite (discard_message_present _ _ _ s b) by done.
  destruct (publish _ _ _ w) as [[[]|aex] w1]; by intros [= <- <- <-].
- rewrite discard_message_absent by auto. by intros [= <- <- <-].
- rewrite discard_message_absent by auto. by intros [= <- <- <-].
Qed.

Lemma discard_all_fields ms : ∀ self w rs self' w',
discard_all self ms w = (rs, self', w') →
_internalClient self' = _internalClient self
∧ _trackedName self' = _trackedName self
∧ _topic self' = _topic self.
Proof.
induction ms as [|m ms IH]; intros self w rs self' w' Hd; [by simplify_eq/=|].
rewrite discard_all_cons in Hd.
destruct (discard_message self m w) as [[r self1] w1] eqn:Hm.
destruct (discard_all self1 ms w1) as [[rs1 self2] w2] eqn:Hrest. simplify_eq.
destruct (IH _ _ _ _ _ Hrest) as (-> & -> & ->).
by eapply discard_message_fields.
Qed.

(** X7. The index [__init__] builds keeps the client, the tracked name and
  the topic it was given, through any sequence of calls. *)
Theorem init_fields_kept (h : H) topic c w idx w1 cs rs idx' w2 :
__init__ h topic c w = (Ok idx, w1) →
run_calls idx cs w1 = (rs, idx', w2) →
_internalClient idx' = h ∧ _trackedName idx' = c ∧ _topic idx' = topic.
Proof.
intros Hinit Hrun. rewrite init_unfold in Hinit.
destruct (sow h topic (client_filter c) w) as [[ms|aex] w'];
  [|discriminate].
destruct (recover ms ∅) as [d|[]]; try discriminate. injection Hinit as <- <-.
destruct (run_calls_only_discards cs (mkStore h c topic d) w') as [Hself _].
rewrite Hrun in Hself. cbn [fst snd] in Hself.
destruct (discard_all (mkStore h c topic d) (discarded_messages cs) w')
  as [[rs1 s1] w1'] eqn:Hd.
cbn [fst snd] in Hself. subst s1.
by apply discard_all_fields in Hd.
Qed.

(** X8. Nothing is ever removed from the index: a subscription id that has
  a bookmark before a sequence of discards has one after it. *)
Theorem discard_all_keeps_entries ms : ∀ self w rs self' w' k,
discard_all self ms w = (rs, self', w') →
is_Some (_mostRecentBookmark self !! k) →
is_Some (_mostRecentBookmark self' !! k).
Proof.
induction ms as [|m ms IH]; intros self w rs self' w' k Hd Hk; [by simplify_eq/=|].
rewrite discard_all_cons in Hd.
destruct (discard_message self m w) as [[r self1] w1] eqn:Hm.
destruct (discard_all self1 ms w1) as [[rs1 self2] w2] eqn:Hrest. simplify_eq.
apply (IH _ _ _ _ _ k Hrest).
destruct (get_sub_id m) as [s|] eqn:Hs; [destruct (get_bookmark m) as [b|] eqn:Hb|].
- rewrite (discard_message_present _ _ _ s b) in Hm by done.
  destruct (publish _ _ _ w) as [[[]|aex] w1']; simplify_eq; [|done].
  cbn [_mostRecentBookmark]. rewrite lookup_insert. case_decide; eauto.
- rewrite discard_message_absent in Hm by auto. by simplify_eq.
- rewrite discard_message_absent in Hm by auto. by simplify_eq.
Qed.

(** X9. The index never holds a bookmark nobody gave it: an entry after a
  sequence of discards was there before, or is the bookmark of a message
  of the sequence whose discard succeeded, under its subscription id. *)
Theorem discard_all_provenance ms : ∀ self w rs self' w' k v,
discard_all self ms w = (rs, self', w') →
_mostRecentBookmark self' !! k = Some v →
_mostRecentBookmark self !! k = Some v
∨ ∃ i m s b, ms !! i = Some m ∧ rs !! i = Some (Ok ())
             ∧ get_sub_id m = Some s ∧ get_bookmark m = Some b
             ∧ k = KStr s ∧ v = JStr b.
Proof.
induction ms as [|m ms IH]; intros self w rs self' w' k v Hd Hk;
  [left; by simplify_eq/=|].
rewrite discard_all_cons in Hd.
destruct (discard_message self m w) as [[r self1] w1] eqn:Hm.
destruct (discard_all self1 ms w1) as [[rs1 self2] w2] eqn:Hrest. simplify_eq.
destruct (IH _ _ _ _ _ _ _ Hrest Hk) as [Hk1 | (i & m' & s & b & ? & ? & ? & ? & ? & ?)].
2:{ right. by exists (S i), m', s, b. }
destruct (get_sub_id m) as [s|] eqn:Hs; [destruct (get_bookmark m) as [b|] eqn:Hb|].
- rewrite (discard_message_present _ _ _ s b) in Hm by done.
  destruct (publish _ _ _ w) as [[[]|aex] w1']; simplify_eq; [|by left].
  cbn [_mostRecentBookmark] in Hk1. rewrite lookup_insert in Hk1.
  case_decide; simplify_eq; [|by left].
  right. by exists 0, m, s, b.
- rewrite discard_message_absent in Hm by auto. simplify_eq. by left.
- rewrite discard_message_absent in Hm by auto. simplify_eq. by left.
Qed.
End HostFacts.

(** X10. What [discard_message] publishes, [__init__] reads back: for a
    client name, a subscription id and a bookmark without quote, backslash
    or control character, the published text, returned by a query as a
    [sow] message, makes the loop record the bookmark under the
    subscription id. *)
Theorem record_read_back c s b d :
  json_plain c = true → json_plain s = true → json_plain b = true →
  recover_message (sow_message (bookmark_record c s b)) d
  = Ok (<[KStr s := JStr b]> d).
Proof.
  intros Hc Hs Hb. apply recover_message_record. unfold message_record.
  cbn [get_command get_data sow_message].
  rewrite json_loads_record by done. reflexivity.
Qed.

(** ** Recovery and discards over the server *)

(** *** More on the map built from keyed rows *)

Lemma foldl_apply_row_keeps rows : ∀ d k,
  is_Some (d !! k) → is_Some (foldl apply_row d rows !! k).
Proof.
  induction rows as [|r rows IH]; intros d k Hk; [done|]. simpl. apply IH.
  unfold apply_row. destruct (row_key r) as [[kc ks]|]; [|done].
  destruct (row_bookmark r); [|done]. rewrite lookup_insert. case_decide; eauto.
Qed.

Lemma foldl_apply_row_perm rows rows' d kc k v :
  NoDup (omap row_key rows) → rows ≡ₚ rows' →
  (∀ r kc' k', r ∈ rows → row_key r = Some (kc', k') → kc' = kc) →
  foldl apply_row d rows !! k = Some v → foldl apply_row d rows' !! k = Some v.
Proof.
  intros Hnd Hperm Hsame Hl.
  assert (NoDup (omap row_key rows')) as Hnd' by (by rewrite <- Hperm).
  assert (∀ r kc' k', r ∈ rows' → row_key r = Some (kc', k') → kc' = kc) as Hsame'.
  { intros r kc' k' Hin. apply Hsame. by rewrite Hperm. }
  pose proof Hl as Hl0.
  apply foldl_apply_row_origin in Hl as [Hd | (row & kc' & Hin & Hk & Hv)].
  - destruct (foldl_apply_row_keeps rows' d k) as [v' Hv']; [eauto|].
    rewrite Hv'. f_equal.
    apply foldl_apply_row_origin in Hv' as [Hd' | (row & kc' & Hin & Hk & Hv)];
      [congruence|].
    assert (foldl apply_row d rows !! k = Some v') as Hl; [|congruence].
    apply (foldl_apply_row_found _ _ row kc); try done.
    + intros r kc'' Hr. by apply Hsame.
    + by rewrite Hperm.
    + by rewrite <- (Hsame' row kc' k Hin Hk).
  - apply (foldl_apply_row_found _ _ row kc); try done.
    + intros r kc'' Hr. by apply Hsame'.
    + by rewrite <- Hperm.
    + by rewrite <- (Hsame row kc' k Hin Hk).
Qed.

Lemma client_rows_same_client c topic w r kc k :
  r ∈ client_rows c topic w → row_key r = Some (kc, k) → kc = KStr c.
Proof. intros [_ [ks Hk]]%client_rows_key Hr. congruence. Qed.

(** X11. A subscription id with no record of the client in the store gets
    the epoch ["0"] from the index built over it. *)
Theorem init_unknown_subscription h topic c w s :
  h ∈ connected w →
  (∀ row, row ∈ rows_of topic w → row_key row ≠ Some (KStr c, KStr s)) →
  ∃ idx, __init__ h topic c w = (Ok idx, w)
         ∧ get_most_recent idx s w = (Ok (JStr "0"), idx, w).
Proof.
  intros Hconn Hnone. eexists. split; [by apply init_server|].
  unfold get_most_recent. cbn [_mostRecentBookmark].
  rewrite foldl_apply_row_other; [by rewrite lookup_empty|].
  intros row kc Hin Hk.
  pose proof (client_rows_same_client _ _ _ _ _ _ Hin Hk) as ->.
  apply client_rows_key in Hin as [Hin _]. by apply (Hnone row).
Qed.

(** X12. What [get_most_recent] returns does not depend on the order in
    which the query returns the records: over two stores that hold the same
    rows, one row per key, in different orders, the indexes [__init__]
    builds return the same bookmark for every subscription id. *)
Theorem init_order_independent h topic c w1 w2 :
  h ∈ connected w1 → h ∈ connected w2 →
  keys_unique (rows_of topic w1) → rows_of topic w1 ≡ₚ rows_of topic w2 →
  ∃ idx1 idx2,
    __init__ h topic c w1 = (Ok idx1, w1) ∧ __init__ h topic c w2 = (Ok idx2, w2)
    ∧ ∀ s, (get_most_recent idx1 s w1).1.1 = (get_most_recent idx2 s w2).1.1.
Proof.
  intros Hc1 Hc2 Huniq Hperm. eexists _, _.
  split; [by apply init_server|]. split; [by apply init_server|].
  intros s. unfold get_most_recent. cbn [_mostRecentBookmark].
  assert (client_rows c topic w1 ≡ₚ client_rows c topic w2) as Hrows.
  { unfold client_rows. by rewrite Hperm. }
  assert (keys_unique (client_rows c topic w1)) as Hu1 by (by apply keys_unique_filter).
  assert (keys_unique (client_rows c topic w2)) as Hu2.
  { unfold keys_unique. by rewrite <- Hrows. }
  destruct (foldl apply_row ∅ (client_rows c topic w1) !! KStr s) as [v|] eqn:H1.
  - erewrite (foldl_apply_row_perm _ _ _ (KStr c)); [done | exact Hu1 | exact Hrows | | exact H1].
    intros r kc' k'. apply client_rows_same_client.
  - destruct (foldl apply_row ∅ (client_rows c topic w2) !! KStr s) as [v|] eqn:H2; [|done].
    exfalso.
    assert (foldl apply_row ∅ (client_rows c topic w1) !! KStr s = Some v); [|congruence].
    eapply (foldl_apply_row_perm _ _ _ (KStr c)); [exact Hu2 | by symmetry | | exact H2].
    intros r kc' k'. apply client_rows_same_client.
Qed.

(** *** The index and the store stay in step *)

Lemma apply_row_agree d1 d2 r k :
  (∀ k', k' ≠ k → d1 !! k' = d2 !! k') →
  ∀ k', k' ≠ k → apply_row d1 r !! k' = apply_row d2 r !! k'.
Proof.
  intros Hagree k' Hne. unfold apply_row.
  destruct (row_key r) as [[kc ks]|]; [|by apply Hagree].
  destruct (row_bookmark r); [|by apply Hagree].
  rewrite !lookup_insert. case_decide; [done | by apply Hagree].
Qed.

Lemma foldl_apply_row_drop rows : ∀ d1 d2 kc k,
  (∀ r kc' k', r ∈ rows → row_key r = Some (kc', k') → kc' = kc) →
  (∀ k', k' ≠ k → d1 !! k' = d2 !! k') →
  ∀ k', k' ≠ k →
    foldl apply_row d1 (filter (fun row => row_key row ≠ Some (kc, k)) rows) !! k'
    = foldl apply_row d2 rows !! k'.
Proof.
  induction rows as [|r rows IH]; intros d1 d2 kc k Hsame Hagree k' Hne.
  { by apply Hagree. }
  rewrite filter_cons. simpl.
  assert (∀ r0 kc' k0, r0 ∈ rows → row_key r0 = Some (kc', k0) → kc' = kc) as Hsame'.
  { intros r0 kc' k0 Hin. apply Hsame. by right. }
  destruct (decide (row_key r ≠ Some (kc, k))) as [Hkeep | Hdrop].
  - simpl. apply IH; [done | | done]. by apply apply_row_agree.
  - apply IH; [done | | done]. intros k0 Hk0. rewrite Hagree by done.
    assert (row_key r = Some (kc, k)) as Hr by (by destruct (decide (row_key r = Some (kc, k)))).
    unfold apply_row. rewrite Hr. destruct (row_bookmark r); [|done].
    by rewrite lookup_insert_ne.
Qed.

Lemma server_discard_connected (self : sow_bookmark_store string) m w r self' w' :
  discard_message self m w = (r, self', w') → connected w' = connected w.
Proof.
  destruct (get_sub_id m) as [s|] eqn:Hs; [destruct (get_bookmark m) as [b|] eqn:Hb|].
  - rewrite (discard_message_present _ _ _ s b) by done.
    cbn [publish server_client]. unfold server_publish.
    destruct (bool_decide _); by intros [= <- <- <-].
  - rewrite discard_message_absent by auto. by intros [= <- <- <-].
  - rewrite discard_message_absent by auto. by intros [= <- <- <-].
Qed.

Lemma coherent_discard (self : sow_bookmark_store string) m w r self' w' :
  _internalClient self ∈ connected w →
  json_plain (_trackedName self) = true → plain_message m = true →
  discard_message self m w = (r, self', w') →
  _mostRecentBookmark self
    = foldl apply_row ∅ (client_rows (_trackedName self) (_topic self) w) →
  _mostRecentBookmark self'
    = foldl apply_row ∅ (client_rows (_trackedName self') (_topic self') w').
Proof.
  intros Hconn Hc Hplain Hd Hcoh.
  destruct (get_sub_id m) as [s|] eqn:Hs; [destruct (get_bookmark m) as [b|] eqn:Hb|].
  - unfold plain_message in Hplain. rewrite Hs, Hb in Hplain.
    apply andb_prop in Hplain as [Hps Hpb].
    rewrite (discard_server _ _ _ s b) in Hd by done. injection Hd as <- <- <-.
    cbn [_mostRecentBookmark _trackedName _topic].
    destruct (row_key_record (_trackedName self) s b Hc Hps Hpb) as [Hk Hv].
    rewrite client_rows_upsert, foldl_app by done. cbn [foldl].
    unfold apply_row at 1. rewrite Hk, Hv, Hcoh.
    apply map_eq. intros k. rewrite !lookup_insert. case_decide; [done|].
    rewrite list_filter_filter.
    rewrite (list_filter_iff _
      (λ row, row_key row ≠ Some (KStr (_trackedName self), KStr s)
              ∧ row_client row = Some (KStr (_trackedName self)))) by tauto.
    rewrite <- list_filter_filter. fold (client_rows (_trackedName self) (_topic self) w).
    symmetry. apply foldl_apply_row_drop; [|done|done].
    intros r0 kc' k'. apply client_rows_same_client.
  - rewrite discard_message_absent in Hd by auto. by injection Hd as <- <- <-.
  - rewrite discard_message_absent in Hd by auto. by injection Hd as <- <- <-.
Qed.

Lemma coherent_discard_all ms : ∀ (self : sow_bookmark_store string) w rs self' w',
  _internalClient self ∈ connected w → json_plain (_trackedName self) = true →
  Forall (λ m, plain_message m = true) ms →
  discard_all self ms w = (rs, self', w') →
  _mostRecentBookmark self
    = foldl apply_row ∅ (client_rows (_trackedName self) (_topic self) w) →
  _internalClient self' ∈ connected w'
  ∧ _mostRecentBookmark self'
    = foldl apply_row ∅ (client_rows (_trackedName self') (_topic self') w').
Proof.
  induction ms as [|m ms IH]; intros self w rs self' w' Hconn Hc Hms Hd Hcoh.
  { by simplify_eq/=. }
  inversion Hms as [|? ? Hm Hrest]; subst. rewrite discard_all_cons in Hd.
  destruct (discard_message self m w) as [[r self1] w1] eqn:Hm1.
  destruct (discard_all self1 ms w1) as [[rs1 self2] w2] eqn:Hrest1. simplify_eq.
  destruct (discard_message_fields _ _ _ _ _ _ Hm1) as (Hf1 & Hf2 & Hf3).
  apply (IH _ _ _ _ _) in Hrest1; try done.
  - by rewrite Hf1, (server_discard_connected _ _ _ _ _ _ Hm1).
  - by rewrite Hf2.
  - by eapply coherent_discard.
Qed.

(** X13. The index is what a recovery would build: over the server, after
    [__init__] and any sequence of discards of messages whose strings (and
    the client's name) hold no quote, backslash or control character, an
    index built afresh for the same client and topic is the index at hand. *)
Theorem index_is_recovery h topic c w idx w1 ms rs idx' w2 :
  h ∈ connected w → json_plain c = true →
  __init__ h topic c w = (Ok idx, w1) →
  Forall (λ m, plain_message m = true) ms →
  discard_all idx ms w1 = (rs, idx', w2) →
  __init__ h topic c w2 = (Ok idx', w2).
Proof.
  intros Hconn Hc Hinit Hms Hd.
  rewrite init_server in Hinit by done. injection Hinit as <- <-.
  destruct (coherent_discard_all ms
              (mkStore h c topic (foldl apply_row ∅ (client_rows c topic w)))
              w rs idx' w2 Hconn Hc Hms Hd eq_refl) as [Hconn' Hcoh].
  destruct (discard_all_fields _ _ _ _ _ _ Hd) as (Hf1 & Hf2 & Hf3).
  cbn [_internalClient _trackedName _topic] in *.
  rewrite init_server by (by rewrite <- Hf1).
  destruct idx' as [h' c' t' d']. cbn [_internalClient _trackedName _topic
    _mostRecentBookmark] in *. by subst.
Qed.

(** *** The handler of example.py *)

Section HandlerFacts.
Context {H W : Type} `{!AMPSClient H W}.

(** X15. The handler of example.py, on a client whose discard is the
  store's: it prints the data of the message, returns normally, and for a
  message with a subscription id and a bookmark either the index now
  holds the bookmark or the client is disconnected and the index is as it
  was. *)
Theorem handler_records_or_disconnects
  (handler : Handler ()) m stdout (st : HAClient H W) r stdout' st' :
__call__ handler m stdout st = (r, stdout', st') →
r = Ok () ∧ stdout' = stdout ++ [get_data m]
∧ ∀ s b, get_sub_id m = Some s → get_bookmark m = Some b →
    (get_most_recent (bookmark_store st') s (ha_world st')).1.1 = Ok (JStr b)
    ∨ (ha_connected st' = false ∧ bookmark_store st' = bookmark_store st).
Proof.
unfold __call__. cbn [client_discard client_disconnect haclient_discarding].
unfold ha_discard, ha_disconnect.
destruct (discard_message (bookmark_store st) m (ha_world st)) as [[[[]|e] store] w] eqn:Hd;
  intros [= <- <- <-]; (split; [done|]); (split; [done|]); intros s b Hs Hb;
  cbn [bookmark_store ha_world ha_connected].
- left. erewrite most_recent_lookup; [done|]. by eapply discard_message_success.
- right. split; [done|].
  rewrite (discard_message_present _ _ _ s b) in Hd by done.
  destruct (publish _ _ _ (ha_world st)) as [[[]|aex] w1]; by simplify_eq.
Qed.
End HandlerFacts.

(** ** Where the entries come from *)

Lemma recover_message_origin m d d' s v :
  recover_message m d = Ok d' → d' !! KStr s = Some v →
  d !! KStr s = Some v ∨ message_record m = Some (s, v).
Proof.
  unfold message_record, recover_message.
  destruct (String.eqb (get_command m) "sow"); simpl; [|intros [= ->]; by left].
  destruct (json_loads (get_data m)) as [body|]; [|discriminate]. simpl.
  destruct (py_contains "bookmark" body) as [[]|] eqn:Hb; simpl;
    [| intros [= ->]; by left | discriminate].
  destruct (py_contains "subId" body) as [[]|] eqn:Hs; simpl;
    [| intros [= ->]; by left | discriminate].
  destruct body as [| | | | |ms]; simpl in *; try discriminate.
  destruct (obj_get "bookmark" ms) as [value|]; simpl; [|discriminate].
  destruct (obj_get "subId" ms) as [key|]; simpl; [|discriminate].
  destruct (py_hashable key) as [k|] eqn:Hk; [|discriminate].
  intros [= <-]. rewrite lookup_insert. case_decide as Hkey; [|by left].
  intros [= <-]. right. destruct key; by simplify_eq/=.
Qed.

Lemma recover_origin ms : ∀ d d' s v,
  recover ms d = Ok d' → d' !! KStr s = Some v →
  d !! KStr s = Some v ∨ ∃ m, m ∈ ms ∧ message_record m = Some (s, v).
Proof.
  induction ms as [|m ms IH]; intros d d' s v Hr Hl; [left; by simplify_eq/=|].
  simpl in Hr. destruct (recover_message m d) as [d1|] eqn:Hm; [|discriminate].
  simpl in Hr. destruct (IH _ _ _ _ Hr Hl) as [Hd1 | (m' & Hin & Hrec)].
  - destruct (recover_message_origin _ _ _ _ _ Hm Hd1) as [? | ?]; [by left|].
    right. exists m. split; [by left | done].
  - right. exists m'. split; [by right | done].
Qed.

Section StoreOrigin.
Context {H W : Type} `{!AMPSClient H W}.

(** X16. Recovery invents nothing: a bookmark the index holds for a
  subscription id after [__init__] is the [bookmark] of a [sow] message
  of the query whose body is an object with that [subId]. *)
Theorem init_provenance (h : H) topic c w ms w1 idx w2 s v :
sow h topic (client_filter c) w = (Ok ms, w1) →
__init__ h topic c w = (Ok idx, w2) →
_mostRecentBookmark idx !! KStr s = Some v →
∃ m, m ∈ ms ∧ message_record m = Some (s, v).
Proof.
intros Hsow Hinit Hl. rewrite init_unfold, Hsow in Hinit.
destruct (recover ms ∅) as [d|e] eqn:Hr; [|destruct e; discriminate].
injection Hinit as <- <-. cbn [_mostRecentBookmark] in Hl.
destruct (recover_origin _ _ _ _ _ Hr Hl) as [Hempty | ?]; [|done].
by rewrite lookup_empty in Hempty.
Qed.

(** X17. Write, then cache: when a discard changes the index, the publish
  of the record has returned normally before, and the change is the
  bookmark of the message under its subscription id. *)
Theorem discard_write_then_cache (self : sow_bookmark_store H) m w r self' w' :
discard_message self m w = (r, self', w') →
_mostRecentBookmark self' ≠ _mostRecentBookmark self →
∃ s b, get_sub_id m = Some s ∧ get_bookmark m = Some b
       ∧ publish (_internalClient self) (_topic self)
           (bookmark_record (_trackedName self) s b) w = (Ok (), w')
       ∧ r = Ok ()
       ∧ _mostRecentBookmark self' = <[KStr s := JStr b]> (_mostRecentBookmark self).
Proof.
intros Hd Hne.
destruct (get_sub_id m) as [s|] eqn:Hs; [destruct (get_bookmark m) as [b|] eqn:Hb|].
- rewrite (discard_message_present _ _ _ s b) in Hd by done.
  destruct (publish _ _ _ w) as [[[]|aex] w1] eqn:Hp; simplify_eq; try done.
  by exists s, b.
- rewrite discard_message_absent in Hd by auto. by simplify_eq.
- rewrite discard_message_absent in Hd by auto. by simplify_eq.
Qed.
End StoreOrigin.

(** ** Instances of the further properties *)

Lemma init_query_failure_witness :
  __init__ "bkmrk" "/amps/bookmarkStore" "haclient" world_down
  = (Raise (AMPS (WithContext "Error reading bookmark store"
                    (ClientError "DisconnectedException"))), world_down).
Proof.
  apply (init_query_failure "bkmrk" "/amps/bookmarkStore" "haclient" world_down).
  reflexivity.
Defined.

Lemma init_unreadable_record_witness :
  __init__ () "/amps/bookmarkStore" "haclient" canned_unreadable
  = (Raise ValueError, canned_unreadable).
Proof.
  apply (init_unreadable_record () "/amps/bookmarkStore" "haclient" canned_unreadable
           canned_unreadable [group_begin] (sow_message "not json") [group_end] ∅);
    reflexivity.
Defined.

Lemma init_last_record_wins_witness :
  match __init__ () "/amps/bookmarkStore" "C" canned_twice with
  | (Ok idx, w2) => get_most_recent idx "S1" w2 = (Ok (JStr "B2"), idx, w2)
  | (Raise _, _) => False
  end.
Proof.
  destruct (__init__ () "/amps/bookmarkStore" "C" canned_twice) as [[idx|e] w2] eqn:E.
  - apply (init_last_record_wins () "/amps/bookmarkStore" "C" canned_twice canned_twice
             w2 idx
             [group_begin;
              sow_message (lit "{`clientName`: `C`, `subId`: `S1`, `bookmark`: `B1`}")]
             (sow_message (lit "{`clientName`: `C`, `subId`: `S1`, `bookmark`: `B2`}"))
             [group_end] "S1" (JStr "B2")); [reflexivity | exact E | reflexivity |].
    repeat constructor. intros v'. vm_compute. discriminate.
  - vm_compute in E. discriminate E.
Defined.

Lemma discard_other_subscription_witness :
  let '(_, self', w') := discard_message store0 (message_of "orders-1" "42" "{}") world0 in
  (get_most_recent self' "orders-2" w').1.1 = (get_most_recent store0 "orders-2" world0).1.1.
Proof.
  destruct (discard_message store0 _ world0) as [[r self'] w'] eqn:E.
  apply (discard_other_subscription _ _ _ _ _ _ "orders-2" E).
  vm_compute. discriminate.
Defined.

Lemma init_fields_kept_witness :
  let '(_, idx', _) :=
    run_calls store0
      [Log (message_of "orders-1" "42" "{}"); DiscardMessage (message_of "orders-1" "42" "{}");
       GetMostRecent "orders-1"] world0 in
  _internalClient idx' = "bkmrk" ∧ _trackedName idx' = "haclient"
  ∧ _topic idx' = "/amps/bookmarkStore".
Proof.
  destruct (run_calls store0 _ world0) as [[rs idx'] w2] eqn:E.
  eapply (init_fields_kept "bkmrk" "/amps/bookmarkStore" "haclient" world0 store0 world0);
    [reflexivity | exact E].
Defined.

Lemma discard_all_keeps_entries_witness :
  let '(_, self1, w1) := discard_message store0 (message_of "orders-2" "7" "{}") world0 in
  let '(_, self', _) := discard_all self1 orders w1 in
  is_Some (_mostRecentBookmark self' !! KStr "orders-2").
Proof.
  destruct (discard_message store0 _ world0) as [[r1 self1] w1] eqn:E1.
  destruct (discard_all self1 orders w1) as [[rs self'] w'] eqn:E.
  apply (discard_all_keeps_entries _ _ _ _ _ _ _ E).
  vm_compute in E1. injection E1 as _ <- _. vm_compute. eauto.
Defined.

Lemma discard_all_provenance_witness :
  let '(rs, self', _) := discard_all store0 orders world0 in
  _mostRecentBookmark store0 !! KStr "orders-1" = Some (JStr "42")
  ∨ ∃ i m s b, orders !! i = Some m ∧ rs !! i = Some (Ok ())
               ∧ get_sub_id m = Some s ∧ get_bookmark m = Some b
               ∧ KStr "orders-1" = KStr s ∧ JStr "42" = JStr b.
Proof.
  destruct (discard_all store0 orders world0) as [[rs self'] w'] eqn:E.
  apply (discard_all_provenance _ _ _ _ _ _ _ _ E).
  vm_compute in E. injection E as _ <- _. vm_compute. reflexivity.
Defined.

Lemma record_read_back_witness :
  recover_message (sow_message (bookmark_record "haclient" "orders-1" "42")) ∅
  = Ok (<[KStr "orders-1" := JStr "42"]> ∅).
Proof. apply (record_read_back "haclient" "orders-1" "42" ∅); reflexivity. Defined.

Lemma init_unknown_subscription_witness :
  ∃ idx, __init__ "bkmrk" "/amps/bookmarkStore" "D" world2 = (Ok idx, world2)
         ∧ get_most_recent idx "S2" world2 = (Ok (JStr "0"), idx, world2).
Proof.
  apply (init_unknown_subscription "bkmrk" "/amps/bookmarkStore" "D" world2 "S2").
  - reflexivity.
  - apply Forall_forall. apply (bool_decide_unpack _). vm_compute. exact I.
Defined.

Lemma init_order_independent_witness :
  ∃ idx1 idx2,
    __init__ "bkmrk" "/amps/bookmarkStore" "C" world2 = (Ok idx1, world2)
    ∧ __init__ "bkmrk" "/amps/bookmarkStore" "C" world2_reordered
      = (Ok idx2, world2_reordered)
    ∧ ∀ s, (get_most_recent idx1 s world2).1.1
           = (get_most_recent idx2 s world2_reordered).1.1.
Proof.
  apply init_order_independent.
  - reflexivity.
  - reflexivity.
  - apply (bool_decide_unpack _). vm_compute. exact I.
  - apply (bool_decide_unpack _). vm_compute. exact I.
Defined.

Lemma index_is_recovery_witness :
  let '(_, idx', w2) := discard_all store0 orders world0 in
  __init__ "bkmrk" "/amps/bookmarkStore" "haclient" w2 = (Ok idx', w2).
Proof.
  destruct (discard_all store0 orders world0) as [[rs idx'] w2] eqn:E.
  apply (index_is_recovery "bkmrk" "/amps/bookmarkStore" "haclient" world0 store0 world0
           orders rs idx' w2); try reflexivity; [|exact E].
  repeat constructor.
Defined.

Lemma handler_records_or_disconnects_witness :
  let '(r, stdout', st') :=
    __call__ (mkHandler ()) (message_of "orders-1" "42" "{}") [] haclient0 in
  r = Ok () ∧ stdout' = [] ++ ["{}"]
  ∧ ∀ s b, Some "orders-1" = Some s → Some "42" = Some b →
      (get_most_recent (bookmark_store st') s (ha_world st')).1.1 = Ok (JStr b)
      ∨ (ha_connected st' = false ∧ bookmark_store st' = store0).
Proof.
  destruct (__call__ (mkHandler ()) _ [] haclient0) as [[r stdout'] st'] eqn:E.
  apply (handler_records_or_disconnects _ _ _ _ _ _ _ E).
Defined.

Lemma init_provenance_witness :
  ∃ m, m ∈ canned_twice ∧ message_record m = Some ("S1", JStr "B2").
Proof.
  apply (init_provenance () "/amps/bookmarkStore" "C" canned_twice canned_twice canned_twice
           (mkStore () "C" "/amps/bookmarkStore" (<[KStr "S1" := JStr "B2"]> ∅))
           canned_twice "S1" (JStr "B2")).
  - reflexivity.
  - vm_compute. reflexivity.
  - vm_compute. reflexivity.
Defined.

Lemma discard_write_then_cache_witness :
  let '(r, self', w') := discard_message store0 (message_of "orders-1" "42" "{}") world0 in
  ∃ s b, Some "orders-1" = Some s ∧ Some "42" = Some b
         ∧ publish "bkmrk" "/amps/bookmarkStore" (bookmark_record "haclient" s b) world0
           = (Ok (), w')
         ∧ r = Ok ()
         ∧ _mostRecentBookmark self' = <[KStr s := JStr b]> ∅.
Proof.
  destruct (discard_message store0 _ world0) as [[r self'] w'] eqn:E.
  apply (discard_write_then_cache _ _ _ _ _ _ E).
  rewrite (discard_server _ _ _ "orders-1" "42") in E by reflexivity.
  apply (f_equal (λ o : outcome (), _mostRecentBookmark o.1.2 !! KStr "orders-1")) in E.
  cbn [fst snd _mostRecentBookmark] in E. rewrite lookup_insert_eq in E.
  intros Heq. rewrite Heq in E. vm_compute in E. discriminate E.
Defined.

(** ** The scenario of example.py *)

Example end_to_end :
  let after := discard_message store0 (message_of "orders-1" "42" "{}") world0 in
  (get_most_recent after.1.2 "orders-1" after.2).1.1 = Ok (JStr "42")
  ∧ rows_of "/amps/bookmarkStore" after.2
    = [lit "{`clientName`: `haclient`, `subId`: `orders-1`, `bookmark`: `42`}"]
  ∧ match (__init__ "bkmrk" "/amps/bookmarkStore" "haclient" after.2).1 with
    | Ok fresh => (get_most_recent fresh "orders-1" after.2).1.1
    | Raise e => Raise e
    end = Ok (JStr "42").
Proof. repeat split; vm_compute; reflexivity. Qed.
